(** * Collaborator bot: Graph client, manager prompt and conversation store

    A shallow embedding of the TypeScript sources
      - [src/services/graphClient.ts]   (class [GraphClient]),
      - the revised [GraphClient] whose text follows README_FIXES.md,
      - [src/agent/manager.ts]          (class [ManagerPrompt]),
      - [src/storage/sqljsStorage.ts]   (class [SqlJsKVStore]),
    followed by the properties the specification states about them.

    Asynchronous code is sequential here: every [await] is a bind of the
    effect monad [Eff].  The outside world (clock, identity provider, REST
    endpoint, decision oracle) is part of the state, and every call to it is
    recorded in a journal so that attempts, sleeps and log lines can be
    counted afterwards.  Log lines are kept without their leading
    pictograph and without the error object passed as second argument. *)

From Stdlib Require Import ZArith List String Ascii Bool Lia.
From Stdlib Require Import DecimalString.
From Stdlib Require Import Sorting.Sorted Sorting.Permutation.
Import ListNotations.

Local Open Scope string_scope.
Local Open Scope Z_scope.

(** ** JavaScript values the sources rely on *)

(** What a [throw] carries: an [Error] instance (with its [name] and
    [message]) or any other value. *)
Inductive Thrown : Type :=
| ErrorObject (name message : string)
| OtherValue (shown : string).

Definition newError (message : string) : Thrown := ErrorObject "Error" message.

(** A promise that has settled: fulfilled with a value or rejected. *)
Inductive Outcome (A : Type) : Type :=
| Returned (a : A)
| Threw (e : Thrown).
Arguments Returned {A} a.
Arguments Threw {A} e.

#[local] Set Warnings "-register-all".

(** JSON documents, as [response.json()] yields them. *)
Inductive Json : Type :=
| JNull
| JBool (b : bool)
| JNumber (z : Z)
| JString (s : string)
| JArray (items : list Json)
| JObject (fields : list (string * Json)).

(** Template literals print numbers in decimal. *)
Definition string_of_Z (z : Z) : string := NilZero.string_of_int (Z.to_int z).

(** A string is truthy unless it is empty. *)
Definition truthy (s : string) : bool := negb (String.eqb s "").

(** [s.startsWith(p)] *)
Fixpoint startsWith (p s : string) : bool :=
  match p, s with
  | EmptyString, _ => true
  | String _ _, EmptyString => false
  | String a p', String b s' => Ascii.eqb a b && startsWith p' s'
  end.

(** [hay.includes(needle)] *)
Fixpoint includes (needle hay : string) : bool :=
  startsWith needle hay ||
  match hay with
  | EmptyString => false
  | String _ rest => includes needle rest
  end.

(** ** The effect monad: state passing with exceptions *)

Section Effects.
Context {St : Type}.

Definition Eff (A : Type) : Type := St -> Outcome A * St.

Definition ret {A} (a : A) : Eff A := fun s => (Returned a, s).

Definition throw {A} (e : Thrown) : Eff A := fun s => (Threw e, s).

Definition bind {A B} (m : Eff A) (k : A -> Eff B) : Eff B :=
  fun s =>
    match m s with
    | (Returned a, s') => k a s'
    | (Threw e, s') => (Threw e, s')
    end.

(** [try { m } catch (error) { handler error }] *)
Definition try_catch {A} (m : Eff A) (handler : Thrown -> Eff A) : Eff A :=
  fun s =>
    match m s with
    | (Returned a, s') => (Returned a, s')
    | (Threw e, s') => handler e s'
    end.

Definition gets {A} (f : St -> A) : Eff A := fun s => (Returned (f s), s).

Definition modify (f : St -> St) : Eff unit := fun s => (Returned tt, f s).
End Effects.

Declare Scope eff_scope.
Delimit Scope eff_scope with eff.
Notation "x <- m ;; k" := (bind m (fun x => k))
  (at level 61, m at next level, right associativity) : eff_scope.
Notation "m ;;; k" := (bind m (fun _ => k))
  (at level 61, right associativity) : eff_scope.

(** ** HTTP and identity-provider vocabulary *)

Inductive Method : Type := GET | POST | PATCH.

Inductive Body : Type :=
| EmptyBody
| JsonBody (raw : string) (value : Json)
| TextBody (raw : string).

Record Response : Type := mkResponse { status : Z; body : Body }.

(** [response.ok]: the status is in the range 200-299. *)
Definition ok (r : Response) : bool := (200 <=? status r) && (status r <=? 299).

(** [await response.text()] *)
Definition text (r : Response) : string :=
  match body r with
  | EmptyBody => ""
  | JsonBody raw _ => raw
  | TextBody raw => raw
  end.

(** [response.json()]: rejects with a [SyntaxError] unless the body is JSON. *)
Definition json_outcome (r : Response) : Outcome Json :=
  match body r with
  | EmptyBody => Threw (ErrorObject "SyntaxError" "Unexpected end of JSON input")
  | JsonBody _ value => Returned value
  | TextBody _ => Threw (ErrorObject "SyntaxError" "Unexpected token in JSON")
  end.

Inductive FetchAnswer : Type :=
| Responds (r : Response)
| NetworkFailure (e : Thrown).

(** [AuthenticationResult] of msal-node: the token and [expiresOn], an
    absolute instant in milliseconds since the epoch (or null). *)
Record AuthenticationResult : Type := mkAuth {
  auth_accessToken : string;
  auth_expiresOn : option Z
}.

Inductive MsalAnswer : Type :=
| Resolves (result : option AuthenticationResult)
| Rejects (e : Thrown).

Inductive Level : Type := LDebug | LWarn | LError.

Inductive Event : Type :=
| Acquire
| Fetch (method : Method) (url : string) (headers : list (string * string))
        (payload : option Json)
| Sleep (ms : Z)
| Log (lvl : Level) (line : string).

(** The client's two private fields together with the world it talks to. *)
Record World : Type := mkWorld {
  clock : Z;                          (* Date.now(), milliseconds *)
  identityProvider : nat -> MsalAnswer; (* answer to the n-th acquisition *)
  acquisitions : nat;
  server : nat -> FetchAnswer;        (* answer to the n-th fetch *)
  fetches : nat;
  accessToken : option string;        (* this.accessToken *)
  tokenExpiry : option Z;             (* this.tokenExpiry *)
  journal : list Event                (* oldest first *)
}.

Definition record (ev : Event) (w : World) : World :=
  mkWorld (clock w) (identityProvider w) (acquisitions w) (server w)
          (fetches w) (accessToken w) (tokenExpiry w) (journal w ++ [ev]).

Definition log (lvl : Level) (line : string) : Eff (St := World) unit :=
  modify (record (Log lvl line)).

(** [await new Promise(resolve => setTimeout(resolve, delay))] *)
Definition sleep (delay : Z) : Eff (St := World) unit :=
  modify (fun w =>
    mkWorld (clock w + delay) (identityProvider w) (acquisitions w) (server w)
            (fetches w) (accessToken w) (tokenExpiry w)
            (journal w ++ [Sleep delay])).

(** [await this.msalClient.acquireTokenByClientCredential(...)] *)
Definition acquireTokenByClientCredential
  : Eff (St := World) (option AuthenticationResult) :=
  fun w =>
    let w' := mkWorld (clock w) (identityProvider w) (S (acquisitions w))
                      (server w) (fetches w) (accessToken w) (tokenExpiry w)
                      (journal w ++ [Acquire]) in
    match identityProvider w (acquisitions w) with
    | Resolves result => (Returned result, w')
    | Rejects e => (Threw e, w')
    end.

(** [await fetch(url, { method, headers, body })] *)
Definition fetch (method : Method) (url : string)
    (headers : list (string * string)) (payload : option Json)
  : Eff (St := World) Response :=
  fun w =>
    let w' := mkWorld (clock w) (identityProvider w) (acquisitions w)
                      (server w) (S (fetches w)) (accessToken w) (tokenExpiry w)
                      (journal w ++ [Fetch method url headers payload]) in
    match server w (fetches w) with
    | Responds r => (Returned r, w')
    | NetworkFailure e => (Threw e, w')
    end.

Definition json (r : Response) : Eff (St := World) Json :=
  fun w => (json_outcome r, w).

Definition set_token (token : string) (expiry : Z) : Eff (St := World) unit :=
  modify (fun w =>
    mkWorld (clock w) (identityProvider w) (acquisitions w) (server w)
            (fetches w) (Some token) (Some expiry) (journal w)).

Definition graphUrl (endpoint : string) : string :=
  "https://graph.microsoft.com/v1.0" ++ endpoint.

Definition jsonHeaders (token : string) : list (string * string) :=
  [("Authorization", "Bearer " ++ token); ("Content-Type", "application/json")].

(** ** [GraphClient], as in src/services/graphClient.ts *)

Module GraphClient.
Local Open Scope eff_scope.

(** [result.expiresOn?.getTime() || 3600000] *)
Definition expiresOn_or_default (result : AuthenticationResult) : Z :=
  match auth_expiresOn result with
  | Some t => if t =? 0 then 3600000 else t
  | None => 3600000
  end.

(** The [try] block of [getAccessToken]. *)
Definition acquire : Eff (St := World) string :=
  result <- acquireTokenByClientCredential ;;
  match result with
  | None => throw (newError "Failed to acquire access token")
  | Some r =>
      if truthy (auth_accessToken r) then
        now <- gets clock ;;
        set_token (auth_accessToken r)
                  (now + expiresOn_or_default r - 300000) ;;;
        log LDebug "Successfully acquired Graph API access token" ;;;
        ret (auth_accessToken r)
      else throw (newError "Failed to acquire access token")
  end.

Definition refresh : Eff (St := World) string :=
  try_catch acquire
    (fun error =>
       log LError "Failed to acquire Graph API access token:" ;;;
       throw error).

(** [this.accessToken && this.tokenExpiry && new Date() < this.tokenExpiry] *)
Definition cached (w : World) : option string :=
  match accessToken w, tokenExpiry w with
  | Some token, Some expiry =>
      if truthy token && (clock w <? expiry) then Some token else None
  | _, _ => None
  end.

Definition getAccessToken : Eff (St := World) string :=
  hit <- gets cached ;;
  match hit with
  | Some token => ret token
  | None => refresh
  end.

Definition errorLine (r : Response) : string :=
  string_of_Z (status r) ++ " - " ++ text r.

Definition graphGet (endpoint : string) : Eff (St := World) Json :=
  token <- getAccessToken ;;
  response <- fetch GET (graphUrl endpoint) (jsonHeaders token) None ;;
  if negb (ok response) then
    log LError ("Graph API GET error: " ++ errorLine response) ;;;
    throw (newError ("Graph API error: " ++ errorLine response))
  else json response.

Definition graphPost (endpoint : string) (body : Json)
  : Eff (St := World) Json :=
  token <- getAccessToken ;;
  response <- fetch POST (graphUrl endpoint) (jsonHeaders token) (Some body) ;;
  if negb (ok response) then
    log LError ("Graph API POST error: " ++ errorLine response) ;;;
    throw (newError ("Graph API error: " ++ errorLine response))
  else if status response =? 204 then ret (JObject [])
  else json response.

Definition _graphPatch (endpoint : string) (body : Json)
  : Eff (St := World) Json :=
  token <- getAccessToken ;;
  response <- fetch PATCH (graphUrl endpoint) (jsonHeaders token) (Some body) ;;
  if negb (ok response) then
    log LError ("Graph API PATCH error: " ++ errorLine response) ;;;
    throw (newError ("Graph API error: " ++ errorLine response))
  else if status response =? 204 then ret (JObject [])
  else json response.

Definition updatePlannerTask (taskId : string) (updates : Json)
    (etag : string) : Eff (St := World) bool :=
  try_catch
    (token <- getAccessToken ;;
     response <- fetch PATCH (graphUrl ("/planner/tasks/" ++ taskId))
                       (jsonHeaders token ++ [("If-Match", etag)])
                       (Some updates) ;;
     if negb (ok response) then
       throw (newError ("Failed to update task: "
                        ++ string_of_Z (status response)))
     else
       log LDebug ("Updated Planner task: " ++ taskId) ;;;
       ret true)
    (fun error =>
       log LError "Error updating Planner task:" ;;;
       ret false).

(** *** The public methods built on [graphGet] and [graphPost] *)

(** JavaScript truthiness of a parsed JSON value. *)
Definition json_truthy (j : Json) : bool :=
  match j with
  | JNull => false
  | JBool b => b
  | JNumber z => negb (z =? 0)
  | JString s => truthy s
  | JArray _ => true
  | JObject _ => true
  end.

Fixpoint field_of (key : string) (fields : list (string * Json))
  : option Json :=
  match fields with
  | [] => None
  | (k, v) :: rest => if String.eqb k key then Some v else field_of key rest
  end.

(** [response.value || []]: reading a property of [null] throws a
    [TypeError]; a missing or falsy property gives the empty array. *)
Definition value_or_empty (response : Json) : Eff (St := World) Json :=
  match response with
  | JNull =>
      throw (ErrorObject "TypeError"
                         "Cannot read properties of null (reading 'value')")
  | JObject fields =>
      match field_of "value" fields with
      | Some v => if json_truthy v then ret v else ret (JArray [])
      | None => ret (JArray [])
      end
  | _ => ret (JArray [])
  end.

Definition getMeetingTranscripts (userId meetingId : string)
  : Eff (St := World) Json :=
  try_catch
    (response <- graphGet ("/users/" ++ userId ++ "/onlineMeetings/"
                           ++ meetingId ++ "/transcripts") ;;
     value_or_empty response)
    (fun error =>
       log LError "Error getting meeting transcripts:" ;;;
       ret (JArray [])).

Definition getUserPlans (userId : string) : Eff (St := World) Json :=
  try_catch
    (response <- graphGet ("/users/" ++ userId ++ "/planner/plans") ;;
     value_or_empty response)
    (fun error =>
       log LError "Error getting user plans:" ;;;
       ret (JArray [])).

Definition getPlanBuckets (planId : string) : Eff (St := World) Json :=
  try_catch
    (response <- graphGet ("/planner/plans/" ++ planId ++ "/buckets") ;;
     value_or_empty response)
    (fun error =>
       log LError "Error getting plan buckets:" ;;;
       ret (JArray [])).

Definition getPlanTasks (planId : string) : Eff (St := World) Json :=
  try_catch
    (response <- graphGet ("/planner/plans/" ++ planId ++ "/tasks") ;;
     value_or_empty response)
    (fun error =>
       log LError "Error getting plan tasks:" ;;;
       ret (JArray [])).

Definition getChatMembers (chatId : string) : Eff (St := World) Json :=
  try_catch
    (response <- graphGet ("/chats/" ++ chatId ++ "/members") ;;
     value_or_empty response)
    (fun error =>
       log LError "Error getting chat members:" ;;;
       ret (JArray [])).

(** [`${task.title}`] for a task given as its JSON object. *)
Definition title_of (task : Json) : string :=
  match task with
  | JObject fields =>
      match field_of "title" fields with
      | Some (JString t) => t
      | _ => "undefined"
      end
  | _ => "undefined"
  end.

(** [createPlannerTask]: the created task, or [null]. *)
Definition createPlannerTask (task : Json)
  : Eff (St := World) (option Json) :=
  try_catch
    (response <- graphPost "/planner/tasks" task ;;
     log LDebug ("Created Planner task: " ++ title_of task) ;;;
     ret (Some response))
    (fun error =>
       log LError "Error creating Planner task:" ;;;
       ret None).

(** [EmailMessage] *)
Inductive ContentType : Type := Text | HTML.

Record Recipient : Type := mkRecipient {
  address : string;
  recipient_name : option string
}.

Record EmailMessage : Type := mkEmail {
  subject : string;
  contentType : ContentType;
  content : string;
  toRecipients : list Recipient;
  ccRecipients : option (list Recipient)
}.

Definition json_of_recipient (r : Recipient) : Json :=
  JObject
    [("emailAddress",
      JObject (("address", JString (address r))
               :: match recipient_name r with
                  | Some n => [("name", JString n)]
                  | None => []
                  end))].

Definition json_of_email (m : EmailMessage) : Json :=
  JObject
    ([("subject", JString (subject m));
      ("body",
       JObject [("contentType",
                 JString match contentType m with
                         | Text => "Text"
                         | HTML => "HTML"
                         end);
                ("content", JString (content m))]);
      ("toRecipients", JArray (map json_of_recipient (toRecipients m)))]
     ++ match ccRecipients m with
        | Some cc => [("ccRecipients", JArray (map json_of_recipient cc))]
        | None => []
        end).

(** [array.join(", ")] *)
Fixpoint join (separator : string) (parts : list string) : string :=
  match parts with
  | [] => ""
  | [x] => x
  | x :: rest => x ++ separator ++ join separator rest
  end.

(** [process.env.BOT_EMAIL_ADDRESS || "ai.solutions@armely.com"] *)
Definition getBotEmail (BOT_EMAIL_ADDRESS : option string) : string :=
  match BOT_EMAIL_ADDRESS with
  | Some e => if truthy e then e else "ai.solutions@armely.com"
  | None => "ai.solutions@armely.com"
  end.

(** [fromEmail || this.getBotEmail()] *)
Definition senderOf (BOT_EMAIL_ADDRESS fromEmail : option string) : string :=
  match fromEmail with
  | Some e => if truthy e then e else getBotEmail BOT_EMAIL_ADDRESS
  | None => getBotEmail BOT_EMAIL_ADDRESS
  end.

Definition sendEmail (BOT_EMAIL_ADDRESS : option string)
    (message : EmailMessage) (fromEmail : option string)
  : Eff (St := World) bool :=
  try_catch
    (let senderEmail := senderOf BOT_EMAIL_ADDRESS fromEmail in
     log LDebug ("Sending email from " ++ senderEmail ++ " to "
                 ++ join ", " (map address (toRecipients message))) ;;;
     graphPost ("/users/" ++ senderEmail ++ "/sendMail")
               (JObject [("message", json_of_email message);
                         ("saveToSentItems", JBool true)]) ;;;
     log LDebug ("Email sent successfully from " ++ senderEmail) ;;;
     ret true)
    (fun error =>
       log LError "Error sending email:" ;;;
       ret false).

(** [await response.text()] of [getTranscriptContent]: the request carries
    the [Authorization] header only. *)
Definition getTranscriptContent (userId meetingId transcriptId : string)
  : Eff (St := World) string :=
  try_catch
    (token <- getAccessToken ;;
     response <- fetch GET
                   ("https://graph.microsoft.com/v1.0/users/" ++ userId
                    ++ "/onlineMeetings/" ++ meetingId ++ "/transcripts/"
                    ++ transcriptId ++ "/content?$format=text/vtt")
                   [("Authorization", "Bearer " ++ token)] None ;;
     if negb (ok response) then
       throw (newError ("Failed to get transcript content: "
                        ++ string_of_Z (status response)))
     else ret (text response))
    (fun error =>
       log LError "Error getting transcript content:" ;;;
       ret "").

(** The longest prefix without [stop], and what follows it. *)
Fixpoint span_until (stop : ascii) (s : string) : string * string :=
  match s with
  | EmptyString => (EmptyString, EmptyString)
  | String c rest =>
      if Ascii.eqb c stop then (EmptyString, s)
      else let (taken, left) := span_until stop rest in (String c taken, left)
  end.

Fixpoint drop (n : nat) (s : string) : string :=
  match n, s with
  | O, _ => s
  | S _, EmptyString => EmptyString
  | S n', String _ rest => drop n' rest
  end.

(** Whether [/19:meeting_([^@]+)@thread/] matches at the start of [s]. *)
Definition meeting_id_here (s : string) : bool :=
  startsWith "19:meeting_" s &&
  (let (id, tail) := span_until "@" (drop 11 s) in
   truthy id && startsWith "@thread" tail).

(** [joinUrl.match(/19:meeting_([^@]+)@thread/)] finds a match. *)
Fixpoint meetingIdMatch (s : string) : bool :=
  meeting_id_here s ||
  match s with
  | EmptyString => false
  | String _ rest => meetingIdMatch rest
  end.

(** [getMeetingByJoinUrl]; [encodeURIComponent] is the runtime's. *)
Definition getMeetingByJoinUrl (encodeURIComponent : string -> string)
    (joinUrl userId : string) : Eff (St := World) (option Json) :=
  try_catch
    (if negb (meetingIdMatch joinUrl) then
       log LWarn "Could not extract meeting ID from join URL" ;;;
       ret None
     else
       response <- graphGet ("/users/" ++ userId
                             ++ "/onlineMeetings?$filter=JoinWebUrl eq '"
                             ++ encodeURIComponent joinUrl ++ "'") ;;
       ret (Some response))
    (fun error =>
       log LError "Error getting meeting:" ;;;
       ret None).
End GraphClient.

(** ** The revised [GraphClient]

    The repository carries a second text of the class, printed after
    README_FIXES.md, in which [graphGet] and [graphPost] take a third
    parameter [retries = 3] and loop.  [getAccessToken] is unchanged. *)

Module GraphClientRevised.
Local Open Scope eff_scope.

(** How one turn of the [for] loop ends: the function settles, or the loop
    goes on with a new [lastError]. *)
Inductive Turn : Type :=
| Settle (result : Outcome Json)
| Again (lastError : Thrown).

(** [Math.pow(2, attempt - 1) * 1000] *)
Definition backoff (attempt : Z) : Z := 2 ^ (attempt - 1) * 1000.

Definition method_name (m : Method) : string :=
  match m with GET => "GET" | POST => "POST" | PATCH => "PATCH" end.

(** [status >= 400 && status < 500 && status !== 429] *)
Definition terminal (r : Response) : bool :=
  (400 <=? status r) && (status r <? 500) && negb (status r =? 429).

(** The [catch] block of the loop. *)
Definition caught (attempt retries : Z) (error : Thrown)
  : Eff (St := World) Turn :=
  if attempt <? retries then
    log LDebug ("Retry attempt " ++ string_of_Z attempt ++ "/"
                ++ string_of_Z retries ++ " in "
                ++ string_of_Z (backoff attempt) ++ "ms...") ;;;
    sleep (backoff attempt) ;;;
    ret (Again error)
  else ret (Again error).

(** One turn.  [no_content] tells whether the 204 test of [graphPost] is
    present.  [return response.json()] is not awaited inside the [try], so
    its rejection leaves the function without reaching the [catch]. *)
Definition turn (method : Method) (no_content : bool) (url : string)
    (token : string) (payload : option Json) (attempt retries : Z)
  : Eff (St := World) Turn :=
  try_catch
    (response <- fetch method url (jsonHeaders token) payload ;;
     if negb (ok response) then
       let lastError :=
         newError ("Graph API error: " ++ string_of_Z (status response)) in
       if terminal response then
         log LError ("Graph API " ++ method_name method ++ " error: "
                     ++ GraphClient.errorLine response) ;;;
         throw lastError
       else if attempt <? retries then
         log LDebug ("Rate limited or server error, retrying in "
                     ++ string_of_Z (backoff attempt) ++ "ms...") ;;;
         sleep (backoff attempt) ;;;
         ret (Again lastError)
       else if no_content && (status response =? 204) then
         ret (Settle (Returned (JObject [])))
       else ret (Settle (json_outcome response))
     else if no_content && (status response =? 204) then
       ret (Settle (Returned (JObject [])))
     else ret (Settle (json_outcome response)))
    (caught attempt retries).

(** [for (let attempt = 1; attempt <= retries; attempt++)], with
    [remaining] turns left, then the two lines after the loop. *)
Fixpoint attempts (method : Method) (no_content : bool) (url token : string)
    (payload : option Json) (retries : Z) (remaining : nat) (attempt : Z)
    (lastError : option Thrown) : Eff (St := World) Json :=
  match remaining with
  | O =>
      log LError ("Graph API " ++ method_name method ++ " failed after "
                  ++ string_of_Z retries ++ " retries:") ;;;
      throw (match lastError with
             | Some e => e
             | None => OtherValue "null"
             end)
  | S remaining' =>
      t <- turn method no_content url token payload attempt retries ;;
      match t with
      | Settle (Returned v) => ret v
      | Settle (Threw e) => throw e
      | Again e =>
          attempts method no_content url token payload retries remaining'
                   (attempt + 1) (Some e)
      end
  end.

Definition graphGet (endpoint : string) (retries : nat)
  : Eff (St := World) Json :=
  token <- GraphClient.getAccessToken ;;
  attempts GET false (graphUrl endpoint) token None (Z.of_nat retries)
           retries 1 None.

Definition graphPost (endpoint : string) (body : Json) (retries : nat)
  : Eff (St := World) Json :=
  token <- GraphClient.getAccessToken ;;
  attempts POST true (graphUrl endpoint) token (Some body) (Z.of_nat retries)
           retries 1 None.
End GraphClientRevised.

(** ** [ManagerPrompt], the request router (src/agent/manager.ts)

    [ChatPrompt] belongs to the @microsoft/teams.ai library.  What the router
    needs of it is its function-calling contract: [send] runs the registered
    function for every call the decision oracle asks for and resolves to the
    oracle's last message.  The oracle is an input: one run of it is the list
    of calls it makes and the way the exchange ends. *)

Module ManagerPrompt.
Local Open Scope eff_scope.

(** The fields of [MessageContext] the manager reads or writes. *)
Record MessageContext : Type := mkContext {
  ctx_text : string;
  startTime : string;
  endTime : string
}.

(** [CapabilityDefinition]: a handler resolves to the capability's answer
    or rejects. *)
Record CapabilityDefinition : Type := mkCapability {
  name : string;
  manager_desc : string;
  handler : MessageContext -> Outcome string
}.

(** The functions registered on the [ChatPrompt]. *)
Inductive Tool : Type :=
| CalculateTimeRange
| ClearConversationHistory
| DelegateTo (capability : CapabilityDefinition).

Inductive Trace : Type :=
| MemoryRead
| MemoryCleared
| Asked (message : string)
| ToolCalled (fname : string)
| HandlerInvoked (capability : string)
| Logged (lvl : Level) (line : string).

(** One run of the decision oracle behind [ChatPrompt.send]: the function
    calls it asks for, in order, each with its argument, and the way the
    exchange ends: the content of its last message (possibly missing) or a
    failure of the call. *)
Record OracleRun : Type := mkRun {
  toolCalls : list (string * string);
  completion : Outcome (option string)
}.

Record Manager : Type := mkManager {
  context : MessageContext;
  prompt : list (string * Tool);
  isInitialized : bool;
  memoryValues : Outcome unit;   (* how [context.memory.values()] settles *)
  oracle : OracleRun;
  trace : list Trace
}.

Definition emit (t : Trace) : Eff (St := Manager) unit :=
  modify (fun m => mkManager (context m) (prompt m) (isInitialized m)
                             (memoryValues m) (oracle m) (trace m ++ [t])).

Definition set_context (c : MessageContext) : Eff (St := Manager) unit :=
  modify (fun m => mkManager c (prompt m) (isInitialized m)
                             (memoryValues m) (oracle m) (trace m)).

Definition register (fname : string) (t : Tool) : Eff (St := Manager) unit :=
  modify (fun m => mkManager (context m) (prompt m ++ [(fname, t)])
                             (isInitialized m) (memoryValues m) (oracle m)
                             (trace m)).

Definition settle {A} (o : Outcome A) : Eff (St := Manager) A :=
  fun m => (o, m).

Section Router.
(** [CAPABILITY_DEFINITIONS] of src/capabilities/registry.ts and
    [extractTimeRange] of src/utils/utils.ts (ISO strings of the range). *)
Variable CAPABILITY_DEFINITIONS : list CapabilityDefinition.
Variable extractTimeRange : string -> option (string * string).

Definition createManagerPrompt : Eff (St := Manager) unit :=
  emit MemoryRead ;;;
  (values <- gets memoryValues ;; settle values) ;;;
  modify (fun m => mkManager (context m) [] (isInitialized m)
                             (memoryValues m) (oracle m) (trace m)) ;;;
  register "calculate_time_range" CalculateTimeRange ;;;
  register "clear_conversation_history" ClearConversationHistory.

Fixpoint addCapabilities_from (cs : list CapabilityDefinition)
  : Eff (St := Manager) unit :=
  match cs with
  | [] => ret tt
  | capability :: rest =>
      register ("delegate_to_" ++ name capability) (DelegateTo capability) ;;;
      addCapabilities_from rest
  end.

Definition addCapabilities : Eff (St := Manager) unit :=
  addCapabilities_from CAPABILITY_DEFINITIONS.

Definition initialize : Eff (St := Manager) unit :=
  initialized <- gets isInitialized ;;
  if initialized then ret tt
  else
    createManagerPrompt ;;;
    addCapabilities ;;;
    modify (fun m => mkManager (context m) (prompt m) true
                               (memoryValues m) (oracle m) (trace m)).

(** The body of a registered function. *)
Definition run_tool (t : Tool) (argument : string)
  : Eff (St := Manager) string :=
  match t with
  | CalculateTimeRange =>
      emit (Logged LDebug ("FUNCTION CALL: calculate_time_range - parsing "
                           ++ argument)) ;;;
      c <- gets context ;;
      match extractTimeRange argument with
      | Some (from, to) => set_context (mkContext (ctx_text c) from to)
      | None => set_context (mkContext (ctx_text c) (endTime c) (endTime c))
      end ;;;
      c' <- gets context ;;
      emit (Logged LDebug (startTime c')) ;;;
      emit (Logged LDebug (endTime c')) ;;;
      ret ""
  | ClearConversationHistory =>
      emit MemoryCleared ;;;
      emit (Logged LDebug "The conversation history has been cleared!") ;;;
      ret ""
  | DelegateTo capability =>
      emit (HandlerInvoked (name capability)) ;;;
      c <- gets context ;;
      settle (handler capability c)
  end.

Fixpoint lookup (fname : string) (table : list (string * Tool))
  : option Tool :=
  match table with
  | [] => None
  | (n, t) :: rest => if String.eqb n fname then Some t else lookup fname rest
  end.

(** The function-calling loop of the [ChatPrompt]: every call the oracle
    asks for runs the function registered under that name; a handler
    that rejects, or a name that is not registered, makes [send] reject. *)
Fixpoint run_calls (calls : list (string * string))
  : Eff (St := Manager) unit :=
  match calls with
  | [] => ret tt
  | (fname, argument) :: rest =>
      emit (ToolCalled fname) ;;;
      table <- gets prompt ;;
      match lookup fname table with
      | Some t => run_tool t argument ;;; run_calls rest
      | None => throw (newError ("Function not found: " ++ fname))
      end
  end.

(** [await this.prompt.send(this.context.text)], yielding
    [response.content]. *)
Definition send (message : string) : Eff (St := Manager) (option string) :=
  emit (Asked message) ;;;
  run <- gets oracle ;;
  run_calls (toolCalls run) ;;;
  settle (completion run).

(** [error instanceof Error ? error.message : "Unknown error"] *)
Definition message_of (error : Thrown) : string :=
  match error with
  | ErrorObject _ message => message
  | OtherValue _ => "Unknown error"
  end.

(** The [try] block of [processRequest]. *)
Definition route : Eff (St := Manager) string :=
  initialize ;;;
  c <- gets context ;;
  content <- send (ctx_text c) ;;
  match content with
  | Some s => if truthy s then ret s else ret "No response generated"
  | None => ret "No response generated"
  end.

(** [ManagerResult.response] of [processRequest]. *)
Definition processRequest : Eff (St := Manager) string :=
  try_catch route
    (fun error =>
       emit (Logged LError "Error in Manager:") ;;;
       ret ("Sorry, I encountered an error processing your request: "
            ++ message_of error)).
End Router.

(** A manager as its constructor leaves it. *)
Definition fresh (c : MessageContext) (memory : Outcome unit)
    (run : OracleRun) : Manager :=
  mkManager c [] false memory run [].

(** The capability handlers invoked during a run. *)
Fixpoint invoked (t : list Trace) : list string :=
  match t with
  | [] => []
  | HandlerInvoked capability :: rest => capability :: invoked rest
  | _ :: rest => invoked rest
  end.
End ManagerPrompt.

(** ** [SqlJsKVStore], the conversation store (src/storage/sqljsStorage.ts)

    The SQL statements are evaluated over the [conversations] table kept as
    the list of its rows in insertion order.  Text is compared the way SQLite
    does under its default collation: byte by byte ([String.leb]).  Writing
    the database file ([saveToFile]) never changes the table and swallows its
    own errors, so it is left out.  [ConversationMemory] forwards each of
    its methods to the store with its own [conversationId]. *)

Module SqlJsKVStore.
Local Open Scope eff_scope.

(** [MessageRecord] of src/storage/types.ts; optional fields are [option]. *)
Record MessageRecord : Type := mkMessage {
  role : option string;
  conversation_id : option string;
  content : string;
  name : string;
  timestamp : string;
  activity_id : option string
}.

(** A row of [conversations]; [blob] holds [JSON.stringify(message)], which
    [JSON.parse] turns back into the record. *)
Record Row : Type := mkRow {
  row_conversation_id : string;
  row_role : string;
  row_name : string;
  row_content : string;
  row_activity_id : string;
  row_timestamp : string;
  blob : MessageRecord
}.

(** [this.db]: null until [initialize] and after [close]. *)
Definition Database : Type := option (list Row).

(** [value || ""] *)
Definition or_empty (value : option string) : string :=
  match value with
  | Some s => s
  | None => ""
  end.

Definition row_of (message : MessageRecord) : Row :=
  mkRow (or_empty (conversation_id message)) (or_empty (role message))
        (name message) (content message) (or_empty (activity_id message))
        (timestamp message) message.

(** [if (!this.db) throw new Error("Database not initialized")] *)
Definition table : Eff (St := Database) (list Row) :=
  fun db =>
    match db with
    | Some rows => (Returned rows, db)
    | None => (Threw (newError "Database not initialized"), db)
    end.

(** *** SQL: ORDER BY, LIMIT, LIKE *)

Fixpoint insert_asc (r : Row) (sorted : list Row) : list Row :=
  match sorted with
  | [] => [r]
  | r' :: rest =>
      if String.leb (row_timestamp r) (row_timestamp r') then r :: sorted
      else r' :: insert_asc r rest
  end.

(** [ORDER BY timestamp ASC]; rows with equal timestamps keep their
    insertion order. *)
Fixpoint order_by_timestamp_asc (rows : list Row) : list Row :=
  match rows with
  | [] => []
  | r :: rest => insert_asc r (order_by_timestamp_asc rest)
  end.

Fixpoint insert_desc (r : Row) (sorted : list Row) : list Row :=
  match sorted with
  | [] => [r]
  | r' :: rest =>
      if String.leb (row_timestamp r') (row_timestamp r) then r :: sorted
      else r' :: insert_desc r rest
  end.

(** [ORDER BY timestamp DESC] *)
Fixpoint order_by_timestamp_desc (rows : list Row) : list Row :=
  match rows with
  | [] => []
  | r :: rest => insert_desc r (order_by_timestamp_desc rest)
  end.

(** [LIMIT n]: a negative bound means no bound. *)
Definition sql_limit (n : Z) (rows : list Row) : list Row :=
  if n <? 0 then rows else firstn (Z.to_nat n) rows.

(** SQLite folds the case of the 26 letters of ASCII and of nothing else
    ([sqlite3Tolower]). *)
Definition lower (c : ascii) : ascii :=
  let n := nat_of_ascii c in
  if (Nat.leb 65 n && Nat.leb n 90)%bool then ascii_of_nat (n + 32) else c.

Fixpoint lower_ascii (s : string) : string :=
  match s with
  | EmptyString => EmptyString
  | String c rest => String (lower c) (lower_ascii rest)
  end.

(** A string stands for its UTF-8 encoding, which is what sql.js binds and
    the table stores.  LIKE reads one character at a time
    ([sqlite3Utf8Read]): a byte of 0xC0 or more opens a character that runs
    over the continuation bytes (0x80 to 0xBF) behind it; any other byte is
    a character of its own. *)
Definition is_lead (c : ascii) : bool := Nat.leb 192 (nat_of_ascii c).

Definition is_continuation (c : ascii) : bool :=
  let n := nat_of_ascii c in (Nat.leb 128 n && Nat.leb n 191)%bool.

(** The continuation bytes at the head of a list of characters. *)
Fixpoint continuation (chars : list string) : string * list string :=
  match chars with
  | String c EmptyString :: rest =>
      if is_continuation c then
        let (tail, others) := continuation rest in (String c tail, others)
      else (EmptyString, chars)
  | _ => (EmptyString, chars)
  end.

Fixpoint characters (s : string) : list string :=
  match s with
  | EmptyString => []
  | String c rest =>
      if is_lead c then
        let (tail, others) := continuation (characters rest) in
        String c tail :: others
      else String c EmptyString :: characters rest
  end.

(** LIKE takes both operands as C strings: they end at the first NUL. *)
Fixpoint c_string (s : string) : string :=
  match s with
  | EmptyString => EmptyString
  | String c rest =>
      if Ascii.eqb c Ascii.zero then EmptyString else String c (c_string rest)
  end.

(** Two characters are the same when they are equal, or are the two cases
    of one ASCII letter. *)
Definition same_char (p c : string) : bool :=
  String.eqb (lower_ascii p) (lower_ascii c).

Fixpoint like_chars (pattern text : list string) : bool :=
  match pattern with
  | [] =>
      match text with [] => true | _ :: _ => false end
  | p :: pattern' =>
      if String.eqb p "%" then
        (fix any_suffix (t : list string) : bool :=
           like_chars pattern' t ||
           match t with
           | [] => false
           | _ :: t' => any_suffix t'
           end) text
      else
        match text with
        | [] => false
        | c :: text' =>
            (String.eqb p "_" || same_char p c) && like_chars pattern' text'
        end
  end.

(** [text LIKE pattern] without ESCAPE: [%] stands for any run of
    characters, [_] for any one character, every other character for
    itself up to ASCII case.  (SQLite refuses a pattern of more than
    50000 bytes; nothing is stated here about such patterns.) *)
Definition like (pattern text : string) : bool :=
  like_chars (characters (c_string pattern)) (characters (c_string text)).

(** *** The methods *)

Definition in_conversation (conversationId : string) (r : Row) : bool :=
  String.eqb (row_conversation_id r) conversationId.

(** [timestamp >= ? AND timestamp <= ?] *)
Definition in_range (startTime endTime : string) (r : Row) : bool :=
  String.leb startTime (row_timestamp r)
  && String.leb (row_timestamp r) endTime.

Definition get (conversationId : string)
  : Eff (St := Database) (list MessageRecord) :=
  rows <- table ;;
  ret (map blob (order_by_timestamp_asc
                   (filter (in_conversation conversationId) rows))).

Definition getMessagesByTimeRange (conversationId startTime endTime : string)
  : Eff (St := Database) (list MessageRecord) :=
  rows <- table ;;
  ret (map blob
         (order_by_timestamp_asc
            (filter (fun r => in_conversation conversationId r
                              && in_range startTime endTime r) rows))).

(** [messages.slice(start)] for an integer [start]. *)
Definition slice {A} (start : Z) (messages : list A) : list A :=
  let len := Z.of_nat (List.length messages) in
  let k := if start <? 0 then Z.max (len + start) 0 else Z.min start len in
  skipn (Z.to_nat k) messages.

(** [limit = 10] when the argument is missing. *)
Definition getRecentMessages (conversationId : string) (limit : option Z)
  : Eff (St := Database) (list MessageRecord) :=
  messages <- get conversationId ;;
  ret (slice (- match limit with Some n => n | None => 10 end) messages).

Definition clearConversation (conversationId : string)
  : Eff (St := Database) unit :=
  rows <- table ;;
  modify (fun _ =>
    Some (filter (fun r => negb (in_conversation conversationId r)) rows)).

Definition addMessages (messages : list MessageRecord)
  : Eff (St := Database) unit :=
  rows <- table ;;
  modify (fun _ => Some (rows ++ map row_of messages)%list).

Definition countMessages (conversationId : string)
  : Eff (St := Database) Z :=
  rows <- table ;;
  ret (Z.of_nat (List.length (filter (in_conversation conversationId) rows))).

(** [maxResults && typeof maxResults === "number" ? maxResults : 5] *)
Definition limit_of (maxResults : option Z) : Z :=
  match maxResults with
  | Some n => if n =? 0 then 5 else n
  | None => 5
  end.

Section Search.

(** [String.prototype.toLowerCase] of the JavaScript runtime, which folds
    the letters of all of Unicode. *)
Variable toLowerCase : string -> string.

(** The bound parameter [`%${k.toLowerCase()}%`]. *)
Definition like_parameter (k : string) : string :=
  "%" ++ toLowerCase k ++ "%".

(** [(content LIKE ? OR content LIKE ? ...)] *)
Definition keyword_clause (keywords : list string) (r : Row) : bool :=
  existsb (fun k => like (like_parameter k) (row_content r)) keywords.

(** [(name LIKE ? OR ...)], added only when [participants] is given and
    not empty. *)
Definition participant_clause (participants : option (list string))
    (r : Row) : bool :=
  match participants with
  | None | Some [] => true
  | Some ps => existsb (fun p => like (like_parameter p) (row_name r)) ps
  end.

(** With no keyword the WHERE clause contains [()], which SQLite refuses
    when the statement is prepared. *)
Definition getFilteredMessages (conversationId : string)
    (keywords : list string) (startTime endTime : string)
    (participants : option (list string)) (maxResults : option Z)
  : Eff (St := Database) (list MessageRecord) :=
  rows <- table ;;
  match keywords with
  | [] => throw (newError "near ): syntax error")
  | _ =>
      ret (map blob
             (sql_limit (limit_of maxResults)
                (order_by_timestamp_desc
                   (filter (fun r => in_conversation conversationId r
                                     && in_range startTime endTime r
                                     && keyword_clause keywords r
                                     && participant_clause participants r)
                           rows))))
  end.
End Search.
End SqlJsKVStore.

(** ** Worlds and observations used to state the properties *)

(** The same world at another instant. *)
Definition at_time (t : Z) (w : World) : World :=
  mkWorld t (identityProvider w) (acquisitions w) (server w) (fetches w)
          (accessToken w) (tokenExpiry w) (journal w).

(** A client just constructed: no token, nothing done yet. *)
Definition world (t : Z) (idp : nat -> MsalAnswer) (srv : nat -> FetchAnswer)
  : World :=
  mkWorld t idp 0 srv 0 None None [].

Definition always (r : Response) : nat -> FetchAnswer := fun _ => Responds r.

(** The delays slept, in order. *)
Fixpoint sleeps (j : list Event) : list Z :=
  match j with
  | [] => []
  | Sleep ms :: rest => ms :: sleeps rest
  | _ :: rest => sleeps rest
  end.

(** An identity provider that issues [token-1], valid for one hour from
    2023-11-14T22:13:20Z, and [token-2] afterwards. *)
Definition issuer (n : nat) : MsalAnswer :=
  match n with
  | O => Resolves (Some (mkAuth "token-1" (Some 1700003600000)))
  | S _ => Resolves (Some (mkAuth "token-2" (Some 1700007200000)))
  end.

Definition serviceUnavailable : Response :=
  mkResponse 503 (TextBody "Service Unavailable").

Definition serviceUnavailableJson : Response :=
  mkResponse 503 (JsonBody "{}" (JObject [])).

Definition notFound : Response := mkResponse 404 (TextBody "Not Found").

Definition preconditionFailed : Response :=
  mkResponse 412 (TextBody "Precondition Failed").

Definition noContent : Response := mkResponse 204 EmptyBody.

Definition cold (srv : nat -> FetchAnswer) : World :=
  world 1700000000000 issuer srv.

Definition task : Json := JObject [("title", JString "Review proposal")].

(** What [updatePlannerTask] resolves to: [true] exactly when a token was
    obtained and the endpoint answered with a 2xx status. *)
Definition update_succeeds (w : World) : bool :=
  match fst (GraphClient.getAccessToken w) with
  | Returned _ =>
      match server w (fetches w) with
      | Responds r => ok r
      | NetworkFailure _ => false
      end
  | Threw _ => false
  end.

(** *** Inputs of the router *)

Definition summarizer : ManagerPrompt.CapabilityDefinition :=
  ManagerPrompt.mkCapability "summarizer" "Use for summaries of the conversation"
    (fun _ => Returned "Summary: the budget was approved.").

Definition planner : ManagerPrompt.CapabilityDefinition :=
  ManagerPrompt.mkCapability "planner" "Use for Planner tasks"
    (fun _ => Returned "Task created: Review proposal").

(** A capability whose handler rejects with the error of a Graph call. *)
Definition email_sender : ManagerPrompt.CapabilityDefinition :=
  ManagerPrompt.mkCapability "email_sender" "Use for sending email"
    (fun _ => Threw (newError
       "Graph API error: 401 - InvalidAuthenticationToken for tenant 72f988bf")).

Definition registry : list ManagerPrompt.CapabilityDefinition :=
  [summarizer; planner; email_sender].

Definition noTimeRange (phrase : string) : option (string * string) := None.

Definition inbound : ManagerPrompt.MessageContext :=
  ManagerPrompt.mkContext "summarize last week and create a task for it"
    "2026-10-31T00:00:00.000Z" "2026-11-01T00:00:00.000Z".

(** An oracle that asks for two delegations before it answers. *)
Definition chained : ManagerPrompt.OracleRun :=
  ManagerPrompt.mkRun
    [("delegate_to_summarizer", ""); ("delegate_to_planner", "")]
    (Returned (Some "Summary: the budget was approved. Task created.")).

(** An oracle call that fails with a network error. *)
Definition unreachable : ManagerPrompt.OracleRun :=
  ManagerPrompt.mkRun [] (Threw (newError "connect ECONNREFUSED 10.0.0.4:443")).

(** An oracle that delegates to the capability whose handler rejects. *)
Definition to_email : ManagerPrompt.OracleRun :=
  ManagerPrompt.mkRun [("delegate_to_email_sender", "")] (Returned (Some "sent")).

(** The table entry [addCapabilities] registers for a capability. *)
Definition delegate_entry (c : ManagerPrompt.CapabilityDefinition)
  : string * ManagerPrompt.Tool :=
  ("delegate_to_" ++ ManagerPrompt.name c, ManagerPrompt.DelegateTo c).

(** The two functions [createManagerPrompt] registers. *)
Definition builtin : list (string * ManagerPrompt.Tool) :=
  [("calculate_time_range", ManagerPrompt.CalculateTimeRange);
   ("clear_conversation_history", ManagerPrompt.ClearConversationHistory)].

(** The function names under which capabilities are registered. *)
Definition is_delegate (fname : string) : bool :=
  startsWith "delegate_to_" fname.

(** The delegations an oracle run asks for. *)
Definition delegate_calls (run : ManagerPrompt.OracleRun)
  : list (string * string) :=
  filter (fun call => is_delegate (fst call)) (ManagerPrompt.toolCalls run).

(** Only names that start with [delegate_to_] lead to a handler. *)
Definition delegates_prefixed (table : list (string * ManagerPrompt.Tool))
  : Prop :=
  forall fname c,
    ManagerPrompt.lookup fname table = Some (ManagerPrompt.DelegateTo c) ->
    is_delegate fname = true.

Definition apology : string :=
  "Sorry, I encountered an error processing your request: ".

(** *** Observations on the store *)

(** Every row was written by [addMessages]: its columns are those of the
    record in its [blob]. *)
Definition consistent (rows : list SqlJsKVStore.Row) : Prop :=
  Forall (fun r => r = SqlJsKVStore.row_of (SqlJsKVStore.blob r)) rows.



(** Timestamp order on rows and on records. *)
Definition row_older_first (a b : SqlJsKVStore.Row) : Prop :=
  String.leb (SqlJsKVStore.row_timestamp a) (SqlJsKVStore.row_timestamp b) = true.


Definition older_first (a b : SqlJsKVStore.MessageRecord) : Prop :=
  String.leb (SqlJsKVStore.timestamp a) (SqlJsKVStore.timestamp b) = true.


(** [needle] occurs in [hay] when the ASCII letters of both are put in
    lower case. *)
Definition ci_includes (needle hay : string) : bool :=
  includes (SqlJsKVStore.lower_ascii needle) (SqlJsKVStore.lower_ascii hay).

(** ASCII text: every byte is between 1 and 127. *)
Fixpoint ascii_text (s : string) : bool :=
  match s with
  | EmptyString => true
  | String c rest =>
      Nat.leb 1 (nat_of_ascii c) && Nat.leb (nat_of_ascii c) 127
      && ascii_text rest
  end.

(** What is known of the runtime's [toLowerCase]: on ASCII text it puts the
    26 letters in lower case and changes nothing else. *)
Definition lowers_ascii (toLowerCase : string -> string) : Prop :=
  forall s, ascii_text s = true -> toLowerCase s = SqlJsKVStore.lower_ascii s.

Definition is_wildcard (c : ascii) : bool :=
  Ascii.eqb c "%" || Ascii.eqb c "_".

(** The text contains none of the LIKE wildcards [%] and [_]. *)
Fixpoint wildcard_free (s : string) : bool :=
  match s with
  | EmptyString => true
  | String c rest => negb (is_wildcard c) && wildcard_free rest
  end.

(** A plain search text: ASCII text without the LIKE wildcards, short
    enough for the pattern [%text%] to stay within SQLite's limit of 50000
    bytes. *)
Definition plain (s : string) : bool :=
  ascii_text s && wildcard_free s && (Z.of_nat (String.length s) <=? 49998).

(** SQLite bounds the depth of an expression (1000 by default) and the
    number of bound parameters (999 in older builds), and with them the
    number of [LIKE] terms a statement can join by [OR]; two lists of at
    most 400 texts each are within both bounds. *)
Definition few {A} (l : list A) : Prop := (List.length l <= 400)%nat.

Definition few_participants (participants : option (list string)) : Prop :=
  match participants with
  | Some ps => few ps
  | None => True
  end.

(** The text holds no NUL, so that LIKE reads all of it. *)
Fixpoint nul_free (s : string) : bool :=
  match s with
  | EmptyString => true
  | String c rest => negb (Ascii.eqb c Ascii.zero) && nul_free rest
  end.

(** The characters of a list, put end to end. *)
Fixpoint flatten (chars : list string) : string :=
  match chars with
  | [] => EmptyString
  | ch :: rest => ch ++ flatten rest
  end.

(** The bytes of a string, each as a character. *)
Fixpoint singles (s : string) : list string :=
  match s with
  | EmptyString => []
  | String c rest => String c EmptyString :: singles rest
  end.

(** The last [n] elements. *)
Definition lastn {A} (n : nat) (l : list A) : list A :=
  skipn (List.length l - n) l.

Definition message (ts author text : string) : SqlJsKVStore.MessageRecord :=
  SqlJsKVStore.mkMessage (Some "user") (Some "conv-1") text author ts None.

Definition monday : SqlJsKVStore.MessageRecord :=
  message "2026-10-26T09:00:00.000Z" "Alice" "The BUDGET review is due".

Definition tuesday : SqlJsKVStore.MessageRecord :=
  message "2026-10-27T09:00:00.000Z" "Bob" "abc".

Definition wednesday : SqlJsKVStore.MessageRecord :=
  message "2026-10-28T09:00:00.000Z" "alice b" "budget approved".



Definition history : list SqlJsKVStore.Row :=
  map SqlJsKVStore.row_of [tuesday; wednesday; monday].

(** *** Observations on the public methods of the client *)

(** The error [getAccessToken] ends with when the provider's answer is not
    a usable token. *)
Definition refusal (answer : MsalAnswer) : option Thrown :=
  match answer with
  | Rejects e => Some e
  | Resolves None => Some (newError "Failed to acquire access token")
  | Resolves (Some r) =>
      if truthy (auth_accessToken r) then None
      else Some (newError "Failed to acquire access token")
  end.

(** A computation that resolves, issues at most one request and never
    sleeps. *)
Definition resolves_quietly {A} (m : Eff (St := World) A) (w : World) : Prop :=
  (exists v, fst (m w) = Returned v)
  /\ (fetches (snd (m w)) <= S (fetches w))%nat
  /\ sleeps (journal (snd (m w))) = sleeps (journal w).

(** The next request cannot succeed: no token, no answer, or an answer
    outside 200-299. *)
Definition request_fails (w : World) : Prop :=
  (exists e, fst (GraphClient.getAccessToken w) = Threw e)
  \/ (exists e, server w (fetches w) = NetworkFailure e)
  \/ (exists r, server w (fetches w) = Responds r /\ ok r = false).

(** The body is a JSON document. *)
Definition is_json (r : Response) : bool :=
  match body r with
  | JsonBody _ _ => true
  | _ => false
  end.

(** The requests issued, in order. *)
Fixpoint requests (j : list Event) : list Event :=
  match j with
  | [] => []
  | Fetch m u h p :: rest => Fetch m u h p :: requests rest
  | _ :: rest => requests rest
  end.

Definition accepted : Response := mkResponse 202 EmptyBody.

Definition summaryMail : GraphClient.EmailMessage :=
  GraphClient.mkEmail "Meeting Summary: Budget" GraphClient.HTML
    "<html><body>Approved.</body></html>"
    [GraphClient.mkRecipient "alice@contoso.com" None] None.

(** An identity provider that issues a token without expiry date. *)
Definition undated (n : nat) : MsalAnswer :=
  Resolves (Some (mkAuth "token-0" None)).

(** [c] does not occur in [s]. *)
Fixpoint free_of (c : ascii) (s : string) : bool :=
  match s with
  | EmptyString => true
  | String d rest => negb (Ascii.eqb d c) && free_of c rest
  end.

(** The join URL contains [19:meeting_<id>@thread] with a non-empty [id]
    that has no [@]: the texts [/19:meeting_([^@]+)@thread/] matches. *)
Definition has_meeting_id (joinUrl : string) : Prop :=
  exists before id after,
    joinUrl = before ++ "19:meeting_" ++ id ++ "@thread" ++ after
    /\ id <> "" /\ free_of "@" id = true.

(** *** Observations on the retry loop of the revised client *)

(** The answer is not a 2xx response. *)
Definition failed (answer : FetchAnswer) : bool :=
  match answer with
  | Responds r => negb (ok r)
  | NetworkFailure _ => true
  end.

(** The delays before attempts [from + 1], [from + 2], ... ([n] of them). *)
Fixpoint backoffs (from : Z) (n : nat) : list Z :=
  match n with
  | O => []
  | S n' => GraphClientRevised.backoff from :: backoffs (from + 1) n'
  end.

(** What the revised [graphGet] ([no_content = false]) or [graphPost]
    ([no_content = true]) makes of an answer it does not retry. *)
Definition settled (no_content : bool) (r : Response) : Outcome Json :=
  if no_content && (status r =? 204) then Returned (JObject [])
  else json_outcome r.

(** How the loop ends when its last attempt fails too. *)
Definition exhausted (no_content : bool) (last : FetchAnswer) : Outcome Json :=
  match last with
  | NetworkFailure e => Threw e
  | Responds r =>
      if GraphClientRevised.terminal r then
        Threw (newError ("Graph API error: " ++ string_of_Z (status r)))
      else settled no_content r
  end.

(** A server that fails with [503] [k] times, then answers [r]. *)
Definition flaky (k : nat) (r : Response) (n : nat) : FetchAnswer :=
  if Nat.ltb n k then Responds serviceUnavailable else Responds r.

Definition created : Response :=
  mkResponse 201 (JsonBody "{}" (JObject [])).

(** *** Further observations on the store *)

(** The conversation a record is filed under: [conversation_id || ""]. *)
Definition belongs (conversationId : string)
    (m : SqlJsKVStore.MessageRecord) : bool :=
  String.eqb (SqlJsKVStore.or_empty (SqlJsKVStore.conversation_id m))
             conversationId.

(** The timestamp of the record lies between the bounds, bounds included. *)
Definition in_window (startTime endTime : string)
    (m : SqlJsKVStore.MessageRecord) : bool :=
  String.leb startTime (SqlJsKVStore.timestamp m)
  && String.leb (SqlJsKVStore.timestamp m) endTime.

(** Some text of the list occurs in [hay], ASCII case ignored. *)
Definition mentions (needles : list string) (hay : string) : bool :=
  existsb (fun k => ci_includes k hay) needles.

(** No participant filter applies, or the author contains a participant. *)
Definition by_participant (participants : option (list string))
    (m : SqlJsKVStore.MessageRecord) : bool :=
  match participants with
  | None | Some [] => true
  | Some ps => mentions ps (SqlJsKVStore.name m)
  end.

Definition unfiled : SqlJsKVStore.MessageRecord :=
  SqlJsKVStore.mkMessage (Some "user") None "no conversation" "Dan"
    "2026-10-30T09:00:00.000Z" None.

(** Two stores answer every read of a conversation alike. *)
Definition same_reads (conversationId : string)
    (a b : SqlJsKVStore.Database) : Prop :=
  fst (SqlJsKVStore.get conversationId a)
  = fst (SqlJsKVStore.get conversationId b)
  /\ (forall A B,
        fst (SqlJsKVStore.getMessagesByTimeRange conversationId A B a)
        = fst (SqlJsKVStore.getMessagesByTimeRange conversationId A B b))
  /\ (forall limit,
        fst (SqlJsKVStore.getRecentMessages conversationId limit a)
        = fst (SqlJsKVStore.getRecentMessages conversationId limit b))
  /\ fst (SqlJsKVStore.countMessages conversationId a)
     = fst (SqlJsKVStore.countMessages conversationId b)
  /\ (forall toLowerCase keywords A B participants maxResults,
        fst (SqlJsKVStore.getFilteredMessages toLowerCase conversationId
               keywords A B participants maxResults a)
        = fst (SqlJsKVStore.getFilteredMessages toLowerCase conversationId
                 keywords A B participants maxResults b)).

(** * Properties *)

Lemma sleeps_app (a b : list Event) :
  sleeps (a ++ b) = (sleeps a ++ sleeps b)%list.
Proof.
  induction a as [|x a IH]; simpl; trivial.
  destruct x; simpl; rewrite ?IH; trivial.
Qed.

(** ** The token cache *)

Section TokenCache.
Import GraphClient.

(** A cached token is handed out without touching the world. *)
Lemma getAccessToken_hit (w : World) (token : string) :
  cached w = Some token -> getAccessToken w = (Returned token, w).
Proof.
  intros Hc. unfold getAccessToken, bind, gets. rewrite Hc. reflexivity.
Qed.

(** The cache answers exactly when a non-empty token is stored and the
    clock is strictly before the stored [tokenExpiry]. *)
Lemma cached_spec (w : World) (token : string) :
  cached w = Some token <->
  accessToken w = Some token /\ token <> "" /\
  exists expiry, tokenExpiry w = Some expiry /\ clock w < expiry.
Proof.
  unfold cached, truthy. split.
  - destruct (accessToken w) as [tok|]; [|discriminate].
    destruct (tokenExpiry w) as [expiry|]; [|discriminate].
    destruct (String.eqb_spec tok ""); simpl; [discriminate|].
    destruct (Z.ltb_spec (clock w) expiry); [|discriminate].
    intros [= ->]. repeat split; trivial. now exists expiry.
  - intros (-> & Hne & expiry & -> & Hlt).
    destruct (String.eqb_spec token ""); [contradiction|]. simpl.
    destruct (Z.ltb_spec (clock w) expiry); [reflexivity|lia].
Qed.

(** What a successful acquisition stores: the instant of the acquisition
    plus the provider's [expiresOn] minus five minutes. *)
Lemma getAccessToken_miss (w : World) (r : AuthenticationResult) :
  cached w = None ->
  identityProvider w (acquisitions w) = Resolves (Some r) ->
  auth_accessToken r <> "" ->
  let w' := snd (getAccessToken w) in
  fst (getAccessToken w) = Returned (auth_accessToken r) /\
  accessToken w' = Some (auth_accessToken r) /\
  tokenExpiry w' = Some (clock w + expiresOn_or_default r - 300000) /\
  acquisitions w' = S (acquisitions w) /\
  clock w' = clock w.
Proof.
  intros Hc Hidp Hne. unfold getAccessToken, bind, gets. rewrite Hc.
  unfold refresh, try_catch, acquire, bind, acquireTokenByClientCredential.
  rewrite Hidp. unfold truthy.
  destruct (String.eqb_spec (auth_accessToken r) ""); [contradiction|].
  simpl. repeat split; reflexivity.
Qed.

(** Acquiring a token never issues a request and never sleeps. *)
Lemma getAccessToken_quiet (w : World) :
  let w' := snd (getAccessToken w) in
  server w' = server w /\ fetches w' = fetches w /\
  sleeps (journal w') = sleeps (journal w).
Proof.
  unfold getAccessToken, bind, gets.
  destruct (cached w) as [token|]; [simpl; auto|].
  unfold refresh, try_catch, acquire, bind, acquireTokenByClientCredential.
  destruct (identityProvider w (acquisitions w)) as [[r|]|e]; simpl;
    [destruct (truthy (auth_accessToken r)); simpl| |];
    repeat split; trivial;
    rewrite !sleeps_app; simpl; now rewrite !app_nil_r.
Qed.
End TokenCache.

(** C1.  The claim asks that a call at or after [E - M] (provider expiry
    minus the five-minute margin) acquires a new token.  [getAccessToken]
    stores [Date.now() + expiresOn.getTime() - 300000], the acquisition
    instant added to an absolute expiry, so the stored limit lies decades
    ahead.  With [token-1] acquired at 1700000000000 and expiring at
    E = 1700003600000, the calls at [E - M], at [E] and one day after [E]
    all return [token-1] and the provider is asked only once. *)
Theorem getAccessToken_reuses_token_past_expiry :
  let w1 := snd (GraphClient.getAccessToken (cold (always notFound))) in
  let again (t : Z) := GraphClient.getAccessToken (at_time t w1) in
  fst (GraphClient.getAccessToken (cold (always notFound))) = Returned "token-1"
  /\ tokenExpiry w1 = Some (1700000000000 + 1700003600000 - 300000)
  /\ fst (again (1700003600000 - 300000)) = Returned "token-1"
  /\ fst (again 1700003600000) = Returned "token-1"
  /\ fst (again (1700003600000 + 86400000)) = Returned "token-1"
  /\ acquisitions (snd (again (1700003600000 + 86400000))) = 1%nat.
Proof. vm_compute. repeat split; reflexivity. Qed.

(** The stored limit in general: a token acquired at instant [t0] with
    provider expiry [E] is reused at every instant before [t0 + E - M]. *)
Lemma token_reused_until_shifted_limit (w : World) (token : string) (E t : Z) :
  GraphClient.cached w = None ->
  identityProvider w (acquisitions w) = Resolves (Some (mkAuth token (Some E))) ->
  token <> "" -> E <> 0 ->
  t < clock w + E - 300000 ->
  let w1 := snd (GraphClient.getAccessToken w) in
  GraphClient.getAccessToken (at_time t w1) = (Returned token, at_time t w1).
Proof.
  intros Hc Hidp Hne HE Ht w1.
  destruct (getAccessToken_miss w _ Hc Hidp Hne) as (_ & Ha & He & _ & _).
  fold w1 in Ha, He. apply getAccessToken_hit, cached_spec. simpl.
  repeat split; trivial.
  exists (clock w + E - 300000). split; trivial.
  rewrite He. unfold GraphClient.expiresOn_or_default. simpl.
  destruct (Z.eqb_spec E 0); [contradiction|reflexivity].
Qed.

(** ** Requests *)

Section Requests.
Import GraphClient.

Lemma not_ok_outside_2xx (r : Response) :
  status r < 200 \/ 299 < status r -> ok r = false.
Proof.
  unfold ok. intros H.
  destruct (Z.leb_spec 200 (status r)), (Z.leb_spec (status r) 299);
    simpl; trivial; lia.
Qed.

(** What [graphGet] does once the token is there and the endpoint answers
    with a status outside 200-299. *)
Lemma graphGet_failure (w : World) (endpoint token : string) (r : Response) :
  fst (getAccessToken w) = Returned token ->
  server w (fetches w) = Responds r ->
  ok r = false ->
  let w1 := snd (getAccessToken w) in
  let done := graphGet endpoint w in
  fst done = Threw (newError ("Graph API error: " ++ string_of_Z (status r)
                              ++ " - " ++ text r))
  /\ fetches (snd done) = S (fetches w)
  /\ journal (snd done) =
       (journal w1 ++ [Fetch GET (graphUrl endpoint) (jsonHeaders token) None;
                       Log LError ("Graph API GET error: "
                                   ++ string_of_Z (status r) ++ " - "
                                   ++ text r)])%list.
Proof.
  intros Htok Hsrv Hok w1 done.
  destruct (getAccessToken_quiet w) as (Hs & Hf & _). fold w1 in Hs, Hf.
  subst done. unfold graphGet, bind.
  destruct (getAccessToken w) as [o w1'] eqn:E. simpl in Htok, w1.
  subst o w1. unfold fetch. rewrite Hs, Hf, Hsrv, Hok. simpl.
  rewrite <- app_assoc. repeat split; reflexivity.
Qed.

Lemma graphPost_failure (w : World) (endpoint token : string) (payload : Json)
    (r : Response) :
  fst (getAccessToken w) = Returned token ->
  server w (fetches w) = Responds r ->
  ok r = false ->
  let w1 := snd (getAccessToken w) in
  let done := graphPost endpoint payload w in
  fst done = Threw (newError ("Graph API error: " ++ string_of_Z (status r)
                              ++ " - " ++ text r))
  /\ fetches (snd done) = S (fetches w)
  /\ journal (snd done) =
       (journal w1 ++ [Fetch POST (graphUrl endpoint) (jsonHeaders token)
                             (Some payload);
                       Log LError ("Graph API POST error: "
                                   ++ string_of_Z (status r) ++ " - "
                                   ++ text r)])%list.
Proof.
  intros Htok Hsrv Hok w1 done.
  destruct (getAccessToken_quiet w) as (Hs & Hf & _). fold w1 in Hs, Hf.
  subst done. unfold graphPost, bind.
  destruct (getAccessToken w) as [o w1'] eqn:E. simpl in Htok, w1.
  subst o w1. unfold fetch. rewrite Hs, Hf, Hsrv, Hok. simpl.
  rewrite <- app_assoc. repeat split; reflexivity.
Qed.

(** [graphGet] and [graphPost] never sleep and issue at most one request,
    whatever the endpoint answers. *)
Lemma graphGet_at_most_one_fetch (w : World) (endpoint : string) :
  let done := graphGet endpoint w in
  (fetches (snd done) <= S (fetches w))%nat
  /\ sleeps (journal (snd done)) = sleeps (journal w).
Proof.
  destruct (getAccessToken_quiet w) as (Hs & Hf & Hj).
  unfold graphGet, bind. destruct (getAccessToken w) as [[token|e] w1];
    simpl in Hs, Hf, Hj |- *; [|split; [lia|trivial]].
  unfold fetch. rewrite Hs, Hf.
  destruct (server w (fetches w)) as [r|e]; simpl;
    [destruct (ok r); simpl|];
    (split; [lia|]); rewrite ?sleeps_app, Hj; simpl; now rewrite ?app_nil_r.
Qed.

Lemma graphPost_at_most_one_fetch (w : World) (endpoint : string)
    (payload : Json) :
  let done := graphPost endpoint payload w in
  (fetches (snd done) <= S (fetches w))%nat
  /\ sleeps (journal (snd done)) = sleeps (journal w).
Proof.
  destruct (getAccessToken_quiet w) as (Hs & Hf & Hj).
  unfold graphPost, bind. destruct (getAccessToken w) as [[token|e] w1];
    simpl in Hs, Hf, Hj |- *; [|split; [lia|trivial]].
  unfold fetch. rewrite Hs, Hf.
  destruct (server w (fetches w)) as [r|e]; simpl;
    [destruct (ok r); simpl; [destruct (status r =? 204); simpl|]|];
    (split; [lia|]); rewrite ?sleeps_app, Hj; simpl; now rewrite ?app_nil_r.
Qed.
End Requests.

(** C8.  A response with a status in 400-499 other than 429 ends [graphGet]
    and [graphPost] at once: one request is issued, nothing else follows it
    but the error log line, and the error thrown (like the log line) carries
    the status and the response body. *)
Theorem terminal_status_single_attempt
    (w : World) (endpoint token : string) (payload : Json) (r : Response) :
  fst (GraphClient.getAccessToken w) = Returned token ->
  server w (fetches w) = Responds r ->
  400 <= status r <= 499 -> status r <> 429 ->
  let w1 := snd (GraphClient.getAccessToken w) in
  let failure := newError ("Graph API error: " ++ string_of_Z (status r)
                           ++ " - " ++ text r) in
  let got := GraphClient.graphGet endpoint w in
  let posted := GraphClient.graphPost endpoint payload w in
  (fst got = Threw failure
   /\ fetches (snd got) = S (fetches w)
   /\ sleeps (journal (snd got)) = sleeps (journal w)
   /\ journal (snd got) =
        (journal w1 ++ [Fetch GET (graphUrl endpoint) (jsonHeaders token) None;
                        Log LError ("Graph API GET error: "
                                    ++ string_of_Z (status r) ++ " - "
                                    ++ text r)])%list)
  /\ (fst posted = Threw failure
      /\ fetches (snd posted) = S (fetches w)
      /\ sleeps (journal (snd posted)) = sleeps (journal w)
      /\ journal (snd posted) =
           (journal w1 ++ [Fetch POST (graphUrl endpoint) (jsonHeaders token)
                                 (Some payload);
                           Log LError ("Graph API POST error: "
                                       ++ string_of_Z (status r) ++ " - "
                                       ++ text r)])%list).
Proof.
  intros Htok Hsrv Hrange H429 w1 failure got posted.
  assert (Hok : ok r = false) by (apply not_ok_outside_2xx; lia).
  destruct (graphGet_failure w endpoint token r Htok Hsrv Hok) as (G1 & G2 & G3).
  destruct (graphPost_failure w endpoint token payload r Htok Hsrv Hok)
    as (P1 & P2 & P3).
  destruct (getAccessToken_quiet w) as (_ & _ & Hq).
  cbv zeta in G3, P3, Hq. subst w1 got posted.
  split; repeat split; trivial.
  - rewrite G3, sleeps_app, Hq. simpl. apply app_nil_r.
  - rewrite P3, sleeps_app, Hq. simpl. apply app_nil_r.
Qed.

Lemma terminal_status_single_attempt_witness :
  let w := cold (always notFound) in
  fst (GraphClient.graphGet "/me" w)
    = Threw (newError "Graph API error: 404 - Not Found")
  /\ fetches (snd (GraphClient.graphGet "/me" w)) = 1%nat
  /\ fst (GraphClient.graphPost "/planner/tasks" task w)
    = Threw (newError "Graph API error: 404 - Not Found")
  /\ fetches (snd (GraphClient.graphPost "/planner/tasks" task w)) = 1%nat.
Proof.
  intros w.
  destruct (terminal_status_single_attempt w "/me" "token-1" task notFound)
    as ((G1 & G2 & _) & _);
    [reflexivity | reflexivity | simpl; lia | discriminate |].
  destruct (terminal_status_single_attempt w "/planner/tasks" "token-1" task
                                           notFound)
    as (_ & (P1 & P2 & _));
    [reflexivity | reflexivity | simpl; lia | discriminate |].
  repeat split; assumption.
Defined.

(** C2.  [graphPost] (and [graphGet]) of src/services/graphClient.ts contain
    no loop: a 503 answer is followed by no sleep and no second request, and
    the error is thrown after the first attempt.  The revised text of the
    class does retry three times with sleeps of 1000 ms and 2000 ms, but after
    the third 503 it falls through to [response.json()]: it throws the parse
    error of the body, or returns the parsed error body as if the request had
    succeeded, instead of the last error. *)
Theorem graphPost_on_503 :
  let once := GraphClient.graphPost "/planner/tasks" task
                (cold (always serviceUnavailable)) in
  let thrice := GraphClientRevised.graphPost "/planner/tasks" task 3
                  (cold (always serviceUnavailable)) in
  let thrice_json := GraphClientRevised.graphPost "/planner/tasks" task 3
                       (cold (always serviceUnavailableJson)) in
  (fst once = Threw (newError "Graph API error: 503 - Service Unavailable")
   /\ fetches (snd once) = 1%nat
   /\ sleeps (journal (snd once)) = [])
  /\ (fetches (snd thrice) = 3%nat
      /\ sleeps (journal (snd thrice)) = [1000; 2000]
      /\ fst thrice = Threw (ErrorObject "SyntaxError" "Unexpected token in JSON"))
  /\ (fetches (snd thrice_json) = 3%nat
      /\ sleeps (journal (snd thrice_json)) = [1000; 2000]
      /\ fst thrice_json = Returned (JObject [])).
Proof. vm_compute. repeat split; reflexivity. Qed.

(** The revised text does not stop at a terminal status either: its [throw]
    sits inside the [try] of the loop, so the [catch] sleeps and the loop
    goes on. *)
Lemma revised_graphGet_on_404 :
  let done := GraphClientRevised.graphGet "/me" 3 (cold (always notFound)) in
  fst done = Threw (newError "Graph API error: 404")
  /\ fetches (snd done) = 3%nat
  /\ sleeps (journal (snd done)) = [1000; 2000].
Proof. vm_compute. repeat split; reflexivity. Qed.

(** C9.  A 204 answer without body: [graphPost] and [_graphPatch] return the
    empty object, [updatePlannerTask] returns [true], but [graphGet] has no
    204 test and rejects with the parse error of [response.json()]. *)
Theorem graphGet_rejects_no_content :
  let w := cold (always noContent) in
  fst (GraphClient.graphGet "/me" w)
    = Threw (ErrorObject "SyntaxError" "Unexpected end of JSON input")
  /\ fst (GraphClient.graphPost "/planner/tasks" task w) = Returned (JObject [])
  /\ fst (GraphClient._graphPatch "/planner/tasks/t1" task w)
     = Returned (JObject [])
  /\ fst (GraphClient.updatePlannerTask "t1" task "W/etag-1" w) = Returned true.
Proof. vm_compute. repeat split; reflexivity. Qed.

(** [response.json()] decides the result of every other 2xx answer, for GET
    as for POST. *)
Lemma graphGet_success (w : World) (endpoint token : string) (r : Response) :
  fst (GraphClient.getAccessToken w) = Returned token ->
  server w (fetches w) = Responds r ->
  ok r = true ->
  fst (GraphClient.graphGet endpoint w) = json_outcome r
  /\ fetches (snd (GraphClient.graphGet endpoint w)) = S (fetches w).
Proof.
  intros Htok Hsrv Hok.
  destruct (getAccessToken_quiet w) as (Hs & Hf & _).
  unfold GraphClient.graphGet, bind.
  destruct (GraphClient.getAccessToken w) as [o w1]. simpl in Htok, Hs, Hf.
  subst o. unfold fetch. rewrite Hs, Hf, Hsrv, Hok. simpl. split; reflexivity.
Qed.

(** ** Conditional update *)

Section ConditionalUpdate.
Import GraphClient.

Lemma bind_run {A B} (m : Eff (St := World) A) (k : A -> Eff B) (w : World) :
  bind m k w = match m w with
               | (Returned a, w') => k a w'
               | (Threw e, w') => (Threw e, w')
               end.
Proof. reflexivity. Qed.

Lemma requests_app (a b : list Event) :
  requests (a ++ b) = (requests a ++ requests b)%list.
Proof.
  induction a as [|x a IH]; simpl; trivial.
  destruct x; simpl; rewrite ?IH; trivial.
Qed.

(** Acquiring a token issues no request. *)
Lemma getAccessToken_no_request (w : World) :
  requests (journal (snd (getAccessToken w))) = requests (journal w).
Proof.
  unfold getAccessToken, bind, gets.
  destruct (cached w) as [token|]; [reflexivity|].
  unfold refresh, try_catch, acquire, bind, acquireTokenByClientCredential.
  destruct (identityProvider w (acquisitions w)) as [[r|]|e]; simpl;
    [destruct (truthy (auth_accessToken r)); simpl| |];
    rewrite !requests_app; simpl; now rewrite !app_nil_r.
Qed.

(** The one request of [updatePlannerTask]: a PATCH of the task that
    carries the ETag in [If-Match]. *)
Lemma updatePlannerTask_request (w : World) (taskId token etag : string)
    (updates : Json) :
  fst (getAccessToken w) = Returned token ->
  requests (journal (snd (updatePlannerTask taskId updates etag w)))
  = List.app (requests (journal w))
        [Fetch PATCH (graphUrl ("/planner/tasks/" ++ taskId))
               [("Authorization", "Bearer " ++ token);
                ("Content-Type", "application/json");
                ("If-Match", etag)]
               (Some updates)].
Proof.
  intros Htok. pose proof (getAccessToken_no_request w) as Hq.
  unfold updatePlannerTask, try_catch. rewrite bind_run.
  destruct (getAccessToken w) as [o w1]. simpl in Htok, Hq. subst o.
  rewrite bind_run. unfold fetch.
  destruct (server w1 (fetches w1)) as [r|e]; [destruct (ok r)|];
    unfold bind, log, modify, throw, ret, record;
    simpl; rewrite ?requests_app, ?Hq; simpl;
    rewrite ?app_nil_r; reflexivity.
Qed.

(** Without a token nothing is sent. *)
Lemma updatePlannerTask_no_request (w : World) (taskId etag : string)
    (updates : Json) (e : Thrown) :
  fst (getAccessToken w) = Threw e ->
  requests (journal (snd (updatePlannerTask taskId updates etag w)))
  = requests (journal w).
Proof.
  intros Htok. pose proof (getAccessToken_no_request w) as Hq.
  unfold updatePlannerTask, try_catch. rewrite bind_run.
  destruct (getAccessToken w) as [o w1]. simpl in Htok, Hq. subst o.
  unfold bind, log, modify, ret, record.
  simpl. rewrite ?requests_app, ?Hq. simpl. now rewrite ?app_nil_r.
Qed.
End ConditionalUpdate.

(** C5, as the code has it.  [updatePlannerTask] sends the ETag it is given
    in the [If-Match] header of its one request, a PATCH of the task (and
    sends nothing when it gets no token), and it never rejects: it resolves
    to a boolean, [true] exactly when the request was answered with a 2xx
    status, and [false] for every failure alike, whether the ETag was stale
    (412), the task unknown (404), or the network or the identity provider
    failed. *)
Theorem updatePlannerTask_resolves_boolean
    (w : World) (taskId : string) (updates : Json) (etag : string) :
  fst (GraphClient.updatePlannerTask taskId updates etag w)
  = Returned (update_succeeds w)
  /\ (forall token,
        fst (GraphClient.getAccessToken w) = Returned token ->
        requests (journal (snd (GraphClient.updatePlannerTask taskId updates
                                  etag w)))
        = List.app (requests (journal w))
            [Fetch PATCH
               ("https://graph.microsoft.com/v1.0/planner/tasks/" ++ taskId)
               [("Authorization", "Bearer " ++ token);
                ("Content-Type", "application/json");
                ("If-Match", etag)]
               (Some updates)])
  /\ (forall e,
        fst (GraphClient.getAccessToken w) = Threw e ->
        requests (journal (snd (GraphClient.updatePlannerTask taskId updates
                                  etag w)))
        = requests (journal w)).
Proof.
  split; [|split].
  - destruct (getAccessToken_quiet w) as (Hs & Hf & _).
    unfold GraphClient.updatePlannerTask, update_succeeds, try_catch, bind.
    destruct (GraphClient.getAccessToken w) as [[token|e] w1];
      simpl in Hs, Hf |- *; [|reflexivity].
    unfold fetch. rewrite Hs, Hf.
    destruct (server w (fetches w)) as [r|e]; simpl; [|reflexivity].
    destruct (ok r); reflexivity.
  - intros token. exact (updatePlannerTask_request w taskId token etag updates).
  - intros e. apply updatePlannerTask_no_request.
Qed.

(** C5 as stated fails: a stale ETag on an existing task (412) and an unknown
    task id (404) give the caller the same value [false]; no error of any
    kind reaches the caller, so there is nothing to tell the two apart. *)
Lemma updatePlannerTask_conflict_like_missing :
  let stale := GraphClient.updatePlannerTask "task-1" task "W/stale"
                 (cold (always preconditionFailed)) in
  let missing := GraphClient.updatePlannerTask "no-such-task" task "W/etag-1"
                   (cold (always notFound)) in
  fst stale = Returned false
  /\ fst missing = Returned false
  /\ fst stale = fst missing
  /\ (forall e, fst stale <> Threw e).
Proof. vm_compute. repeat split; try reflexivity. intros e; discriminate. Qed.

(** ** The router *)

Section RouterFacts.
Import ManagerPrompt.

Variable CAPABILITY_DEFINITIONS : list CapabilityDefinition.
Variable extractTimeRange : string -> option (string * string).

Lemma invoked_app (a b : list Trace) :
  invoked (a ++ b) = (invoked a ++ invoked b)%list.
Proof.
  induction a as [|x a IH]; simpl; trivial.
  destruct x; simpl; rewrite ?IH; trivial.
Qed.

Lemma addCapabilities_from_registers (cs : list CapabilityDefinition)
    (m : Manager) :
  addCapabilities_from cs m =
  (Returned tt,
   mkManager (context m) (prompt m ++ map delegate_entry cs)
             (isInitialized m) (memoryValues m) (oracle m) (trace m)).
Proof.
  revert m. induction cs as [|c cs IH]; intros m; simpl.
  - rewrite app_nil_r. destruct m; reflexivity.
  - unfold bind, register, modify. rewrite IH. simpl.
    rewrite <- app_assoc. reflexivity.
Qed.

(** The first call of [processRequest] on a new manager builds the table:
    the two utility functions, then one delegate per capability. *)
Lemma initialize_fresh (c : MessageContext) (memory : Outcome unit)
    (run : OracleRun) :
  initialize CAPABILITY_DEFINITIONS (fresh c memory run) =
  match memory with
  | Returned _ =>
      (Returned tt,
       mkManager c (builtin ++ map delegate_entry CAPABILITY_DEFINITIONS)
                 true memory run [MemoryRead])
  | Threw e => (Threw e, mkManager c [] false memory run [MemoryRead])
  end.
Proof.
  unfold initialize, fresh, bind, gets. simpl.
  unfold createManagerPrompt, bind, emit, modify, gets, settle, register.
  simpl. destruct memory as [[]|e]; simpl; [|reflexivity].
  unfold addCapabilities. rewrite addCapabilities_from_registers.
  reflexivity.
Qed.

Lemma registered_table_prefixed :
  delegates_prefixed (builtin ++ map delegate_entry CAPABILITY_DEFINITIONS).
Proof.
  intros fname c. unfold builtin. cbn [app lookup].
  destruct (String.eqb "calculate_time_range" fname); [discriminate|].
  destruct (String.eqb "clear_conversation_history" fname); [discriminate|].
  induction CAPABILITY_DEFINITIONS as [|d ds IH]; [discriminate|].
  change (map delegate_entry (d :: ds))
    with (("delegate_to_" ++ name d, DelegateTo d) :: map delegate_entry ds).
  cbn [lookup].
  destruct (String.eqb_spec ("delegate_to_" ++ name d) fname) as [<-|_].
  - intros _. reflexivity.
  - exact IH.
Qed.

(** Running the calls of the oracle invokes at most one handler for each
    delegation it asked for. *)
Lemma run_calls_invoked (calls : list (string * string)) (m : Manager) :
  delegates_prefixed (prompt m) ->
  (List.length (invoked (trace (snd (run_calls extractTimeRange calls m))))
   <= List.length (invoked (trace m))
      + List.length (filter (fun call => is_delegate (fst call)) calls))%nat.
Proof.
  revert m. induction calls as [|[fname argument] calls IH]; intros m Hp.
  - simpl. lia.
  - cbn [run_calls filter fst]. unfold bind at 1. unfold emit at 1.
    unfold modify at 1. cbn [snd fst]. unfold bind at 1. unfold gets at 1.
    cbn [prompt].
    destruct (lookup fname (prompt m)) as [[| |cap]|] eqn:L.
    + (* calculate_time_range *)
      unfold bind at 1.
      match goal with
      | |- context [run_tool ?x ?t ?a ?s] =>
          destruct (run_tool x t a s) as [[v|e] m1] eqn:R
      end.
      * assert (Hm1 : prompt m1 = prompt m /\ invoked (trace m1) = invoked (trace m)).
        { unfold run_tool, bind, emit, modify, gets, set_context, ret in R.
          simpl in R.
          destruct (extractTimeRange argument) as [[from to]|];
            simpl in R; inversion R; subst; simpl;
            rewrite ?invoked_app; simpl; rewrite ?app_nil_r; auto. }
        destruct Hm1 as [Hq Hi].
        specialize (IH m1). rewrite Hq in IH. specialize (IH Hp).
        rewrite Hi in IH.
        destruct (is_delegate fname); simpl; lia.
      * exfalso.
        unfold run_tool, bind, emit, modify, gets, set_context, ret in R.
        simpl in R.
        destruct (extractTimeRange argument) as [[from to]|];
          simpl in R; discriminate.
    + (* clear_conversation_history *)
      unfold bind at 1. unfold run_tool, bind, emit, modify, ret. simpl.
      match goal with
      | |- context [run_calls _ _ ?s] => specialize (IH s)
      end.
      simpl in IH. specialize (IH Hp).
      rewrite !invoked_app in IH. simpl in IH. rewrite !app_nil_r in IH.
      destruct (is_delegate fname); simpl; lia.
    + (* delegate_to_<capability> *)
      rewrite (Hp fname cap L). simpl.
      unfold bind at 1. unfold run_tool, bind, emit, modify, gets, settle.
      simpl. destruct (handler cap (context m)) as [answer|e]; simpl.
      * match goal with
        | |- context [run_calls _ _ ?s] => specialize (IH s)
        end.
        simpl in IH. specialize (IH Hp).
        rewrite !invoked_app in IH. simpl in IH.
        rewrite !length_app in IH. simpl in IH. lia.
      * rewrite !invoked_app. simpl. rewrite !length_app. simpl. lia.
    + (* not registered *)
      simpl. rewrite invoked_app. simpl. rewrite app_nil_r.
      destruct (is_delegate fname); simpl; lia.
Qed.

Lemma route_answer_not_empty (m m' : Manager) (reply : string) :
  route CAPABILITY_DEFINITIONS extractTimeRange m = (Returned reply, m') ->
  reply <> "".
Proof.
  unfold route, bind.
  destruct (initialize CAPABILITY_DEFINITIONS m) as [[u|e] m1]; [|discriminate].
  unfold gets.
  destruct (send extractTimeRange (ctx_text (context m1)) m1)
    as [[[s|]|e] m2]; try discriminate.
  - destruct (truthy s) eqn:T; unfold ret; intros [= <- <-].
    + unfold truthy in T. destruct (String.eqb_spec s ""); [discriminate|].
      assumption.
    + discriminate.
  - unfold ret. intros [= <- <-]. discriminate.
Qed.

(** [processRequest] always resolves, and never to the empty string. *)
Lemma processRequest_replies (m : Manager) :
  exists reply,
    fst (processRequest CAPABILITY_DEFINITIONS extractTimeRange m)
    = Returned reply /\ reply <> "".
Proof.
  unfold processRequest, try_catch.
  destruct (route CAPABILITY_DEFINITIONS extractTimeRange m)
    as [[reply|e] m'] eqn:R.
  - exists reply. split; [reflexivity|]. eapply route_answer_not_empty, R.
  - eexists. split; [reflexivity|]. discriminate.
Qed.
End RouterFacts.

(** C3, as the code has it.  The router itself puts no bound on the handlers
    it runs: on a new manager [processRequest] invokes at most one handler
    for each delegation the decision oracle asks for (so at most one when the
    oracle follows its instruction to delegate once), and its reply is never
    empty. *)
Theorem handlers_bounded_by_delegations
    (CAPABILITY_DEFINITIONS : list ManagerPrompt.CapabilityDefinition)
    (extractTimeRange : string -> option (string * string))
    (c : ManagerPrompt.MessageContext) (memory : Outcome unit)
    (run : ManagerPrompt.OracleRun) :
  let done := ManagerPrompt.processRequest CAPABILITY_DEFINITIONS
                extractTimeRange (ManagerPrompt.fresh c memory run) in
  (List.length (ManagerPrompt.invoked (ManagerPrompt.trace (snd done)))
   <= List.length (delegate_calls run))%nat
  /\ exists reply, fst done = Returned reply /\ reply <> "".
Proof.
  intros done. split; [|apply processRequest_replies].
  subst done. unfold ManagerPrompt.processRequest, try_catch,
    ManagerPrompt.route, bind at 1.
  rewrite initialize_fresh. destruct memory as [[]|e]; [|simpl; lia].
  unfold bind at 1, gets at 1. cbn [ManagerPrompt.context].
  unfold ManagerPrompt.send, bind at 1, ManagerPrompt.emit at 1, modify at 1.
  unfold bind at 1, gets at 1.
  cbn [ManagerPrompt.context ManagerPrompt.prompt ManagerPrompt.isInitialized
       ManagerPrompt.memoryValues ManagerPrompt.oracle ManagerPrompt.trace].
  unfold bind at 1. unfold bind at 1.
  match goal with
  | |- context [ManagerPrompt.run_calls _ ?calls ?s] =>
      pose proof (run_calls_invoked extractTimeRange calls s
                    (registered_table_prefixed CAPABILITY_DEFINITIONS)) as H;
      destruct (ManagerPrompt.run_calls extractTimeRange calls s)
        as [[u|e] m1]
  end; simpl in H; unfold delegate_calls.
  - unfold ManagerPrompt.settle. cbn [ManagerPrompt.oracle].
    destruct (ManagerPrompt.completion run) as [[s|]|e]; simpl.
    + destruct (truthy s); simpl; exact H.
    + exact H.
    + rewrite invoked_app. simpl. rewrite app_nil_r. exact H.
  - simpl. rewrite invoked_app. simpl. rewrite app_nil_r. exact H.
Qed.

(** C3 as stated fails: when the oracle asks for two delegations, both
    handlers run for the one inbound message. *)
Lemma two_handlers_for_one_message :
  let done := ManagerPrompt.processRequest registry noTimeRange
                (ManagerPrompt.fresh inbound (Returned tt) chained) in
  ManagerPrompt.invoked (ManagerPrompt.trace (snd done))
  = ["summarizer"; "planner"]
  /\ ~ (List.length (ManagerPrompt.invoked (ManagerPrompt.trace (snd done)))
        <= 1)%nat.
Proof. vm_compute. split; [reflexivity|]. intros H. inversion H as [|? H1]. inversion H1. Qed.

Lemma startsWith_refl (s : string) : startsWith s s = true.
Proof.
  induction s as [|a s IH]; simpl; trivial.
  rewrite Ascii.eqb_refl. exact IH.
Qed.

Lemma includes_suffix (p s : string) : includes s (p ++ s) = true.
Proof.
  induction p as [|a p IH]; simpl.
  - destruct s; simpl; trivial.
    rewrite Ascii.eqb_refl, startsWith_refl. reflexivity.
  - rewrite IH. apply orb_true_r.
Qed.

(** C4, as the code has it.  When the [try] block of [processRequest]
    rejects (the oracle call fails, a handler throws, the memory cannot be
    read), the error is logged and the reply is the fixed apology followed by
    the message of the error, or by "Unknown error" when the thrown value is
    not an [Error]; the reply therefore contains that message. *)
Theorem processRequest_apology_carries_message
    (CAPABILITY_DEFINITIONS : list ManagerPrompt.CapabilityDefinition)
    (extractTimeRange : string -> option (string * string))
    (m m' : ManagerPrompt.Manager) (error : Thrown) :
  ManagerPrompt.route CAPABILITY_DEFINITIONS extractTimeRange m
  = (Threw error, m') ->
  let done := ManagerPrompt.processRequest CAPABILITY_DEFINITIONS
                extractTimeRange m in
  fst done = Returned (apology ++ ManagerPrompt.message_of error)
  /\ ManagerPrompt.trace (snd done)
     = (ManagerPrompt.trace m'
        ++ [ManagerPrompt.Logged LError "Error in Manager:"])%list
  /\ (forall reply, fst done = Returned reply ->
                    includes (ManagerPrompt.message_of error) reply = true).
Proof.
  intros R done. subst done.
  unfold ManagerPrompt.processRequest, try_catch. rewrite R.
  unfold bind, ManagerPrompt.emit, modify, ret. cbn [fst snd].
  repeat split; trivial.
  intros reply [= <-]. apply (includes_suffix apology).
Qed.

Lemma processRequest_apology_carries_message_witness :
  fst (ManagerPrompt.processRequest registry noTimeRange
         (ManagerPrompt.fresh inbound (Returned tt) unreachable))
  = Returned (apology ++ "connect ECONNREFUSED 10.0.0.4:443").
Proof.
  apply (processRequest_apology_carries_message registry noTimeRange
           (ManagerPrompt.fresh inbound (Returned tt) unreachable)
           (ManagerPrompt.mkManager inbound
              (ManagerPrompt.prompt
                 (snd (ManagerPrompt.initialize registry
                         (ManagerPrompt.fresh inbound (Returned tt) unreachable))))
              true (Returned tt) unreachable
              [ManagerPrompt.MemoryRead;
               ManagerPrompt.Asked (ManagerPrompt.ctx_text inbound)])
           (newError "connect ECONNREFUSED 10.0.0.4:443")).
  reflexivity.
Defined.

(** C4 as stated fails: the text shown to the user contains the message of
    the exception, both when the oracle call fails and when a capability
    handler throws, and so differs from one failure to the other. *)
Lemma reply_shows_exception_message :
  let oracle_down := fst (ManagerPrompt.processRequest registry noTimeRange
                       (ManagerPrompt.fresh inbound (Returned tt) unreachable)) in
  let handler_threw := fst (ManagerPrompt.processRequest registry noTimeRange
                         (ManagerPrompt.fresh inbound (Returned tt) to_email)) in
  oracle_down
  = Returned "Sorry, I encountered an error processing your request: connect ECONNREFUSED 10.0.0.4:443"
  /\ handler_threw
     = Returned "Sorry, I encountered an error processing your request: Graph API error: 401 - InvalidAuthenticationToken for tenant 72f988bf"
  /\ (exists reply, oracle_down = Returned reply
                    /\ includes "ECONNREFUSED 10.0.0.4:443" reply = true)
  /\ (exists reply, handler_threw = Returned reply
                    /\ includes "InvalidAuthenticationToken" reply = true)
  /\ oracle_down <> handler_threw.
Proof.
  vm_compute. repeat split; try reflexivity.
  - eexists. split; reflexivity.
  - eexists. split; reflexivity.
  - discriminate.
Qed.

(** ** The conversation store *)

Section Ordering.
Import SqlJsKVStore.

Lemma insert_asc_perm (r : Row) (l : list Row) :
  Permutation (insert_asc r l) (r :: l).
Proof.
  induction l as [|x l IH]; simpl; [reflexivity|].
  destruct (String.leb (row_timestamp r) (row_timestamp x)); [reflexivity|].
  rewrite IH. apply perm_swap.
Qed.

Lemma order_asc_perm (l : list Row) :
  Permutation (order_by_timestamp_asc l) l.
Proof.
  induction l as [|x l IH]; simpl; [reflexivity|].
  rewrite insert_asc_perm. now constructor.
Qed.

Lemma insert_desc_perm (r : Row) (l : list Row) :
  Permutation (insert_desc r l) (r :: l).
Proof.
  induction l as [|x l IH]; simpl; [reflexivity|].
  destruct (String.leb (row_timestamp x) (row_timestamp r)); [reflexivity|].
  rewrite IH. apply perm_swap.
Qed.

Lemma order_desc_perm (l : list Row) :
  Permutation (order_by_timestamp_desc l) l.
Proof.
  induction l as [|x l IH]; simpl; [reflexivity|].
  rewrite insert_desc_perm. now constructor.
Qed.

Lemma leb_false_flip (a b : string) :
  String.leb a b = false -> String.leb b a = true.
Proof.
  intros H. destruct (String.leb_total a b) as [T|T]; congruence.
Qed.

Lemma insert_asc_sorted (r : Row) (l : list Row) :
  Sorted row_older_first l -> Sorted row_older_first (insert_asc r l).
Proof.
  induction 1 as [|x l Hs IH Hd]; simpl; [repeat constructor|].
  destruct (String.leb (row_timestamp r) (row_timestamp x)) eqn:E.
  - repeat constructor; assumption.
  - constructor; [exact IH|].
    apply leb_false_flip in E.
    destruct Hd as [|y l Hxy]; simpl; [repeat constructor; exact E|].
    destruct (String.leb (row_timestamp r) (row_timestamp y));
      constructor; assumption.
Qed.

Lemma order_asc_sorted (l : list Row) :
  Sorted row_older_first (order_by_timestamp_asc l).
Proof.
  induction l as [|x l IH]; simpl; [constructor|].
  apply insert_asc_sorted, IH.
Qed.




Lemma Sorted_skipn {A} (R : A -> A -> Prop) (n : nat) (l : list A) :
  Sorted R l -> Sorted R (skipn n l).
Proof.
  revert l. induction n as [|n IH]; intros l Hs; simpl; [exact Hs|].
  destruct Hs as [|x l Hs Hd]; [constructor|]. apply IH, Hs.
Qed.

(** Reading the blobs of consistent rows keeps the timestamp order. *)
Lemma Sorted_map_blob (R : Row -> Row -> Prop)
    (Q : MessageRecord -> MessageRecord -> Prop) (l : list Row) :
  (forall a b, In a l -> In b l -> R a b -> Q (blob a) (blob b)) ->
  Sorted R l -> Sorted Q (map blob l).
Proof.
  intros HRQ Hs. induction Hs as [|x l Hs IH Hd]; simpl; constructor.
  - apply IH. intros a b Ha Hb. apply HRQ; now right.
  - destruct Hd as [|y l Hxy]; simpl; constructor.
    apply HRQ; simpl; auto.
Qed.

Lemma consistent_timestamp (rows : list Row) (r : Row) :
  consistent rows -> In r rows -> row_timestamp r = timestamp (blob r).
Proof.
  unfold consistent. rewrite Forall_forall. intros Hc Hin.
  rewrite (Hc r Hin) at 1. reflexivity.
Qed.
End Ordering.

Section Like.
Import SqlJsKVStore.

Lemma lower_idempotent (c : ascii) : lower (lower c) = lower c.
Proof. destruct c as [[] [] [] [] [] [] [] []]; reflexivity. Qed.

Lemma lower_wildcard (c : ascii) : is_wildcard (lower c) = is_wildcard c.
Proof. destruct c as [[] [] [] [] [] [] [] []]; reflexivity. Qed.


Lemma lower_ascii_wildcard_free (s : string) :
  wildcard_free (lower_ascii s) = wildcard_free s.
Proof.
  induction s as [|c s IH]; simpl; [reflexivity|].
  now rewrite lower_wildcard, IH.
Qed.


Lemma lower_ascii_text (s : string) :
  ascii_text (lower_ascii s) = ascii_text s.
Proof.
  induction s as [|c s IH]; simpl; [reflexivity|]. rewrite IH. f_equal.
  destruct c as [[] [] [] [] [] [] [] []]; reflexivity.
Qed.

Lemma ascii_text_app (a b : string) :
  ascii_text (a ++ b) = ascii_text a && ascii_text b.
Proof.
  induction a as [|c a IH]; simpl; [reflexivity|].
  now rewrite IH, andb_assoc.
Qed.

(** ASCII text holds one character a byte, and no NUL. *)
Lemma characters_ascii (s : string) :
  ascii_text s = true -> characters s = singles s.
Proof.
  induction s as [|c s IH]; simpl; [reflexivity|]. intros H.
  apply andb_true_iff in H as [Hc Hs]. rewrite (IH Hs).
  destruct c as [[] [] [] [] [] [] [] []]; try discriminate; reflexivity.
Qed.

Lemma c_string_ascii (s : string) : ascii_text s = true -> c_string s = s.
Proof.
  induction s as [|c s IH]; simpl; [reflexivity|]. intros H.
  apply andb_true_iff in H as [Hc Hs]. rewrite (IH Hs).
  destruct c as [[] [] [] [] [] [] [] []]; try discriminate; reflexivity.
Qed.


Lemma continuation_flatten (chars : list string) :
  fst (continuation chars) ++ flatten (snd (continuation chars))
  = flatten chars.
Proof.
  induction chars as [|ch chars IH]; [reflexivity|].
  destruct ch as [|c [|c' ch]]; try reflexivity.
  cbn [continuation]. destruct (is_continuation c); [|reflexivity].
  destruct (continuation chars) as [tail others]. simpl in *.
  now rewrite IH.
Qed.

(** Cutting a text into characters loses nothing. *)
Lemma flatten_characters (s : string) : flatten (characters s) = s.
Proof.
  induction s as [|c s IH]; [reflexivity|].
  cbn [characters]. destruct (is_lead c); [|simpl; now rewrite IH].
  pose proof (continuation_flatten (characters s)) as H.
  destruct (continuation (characters s)) as [tail others]. simpl in *.
  now rewrite H, IH.
Qed.





(** How a leading [%] unfolds. *)
Lemma like_percent (pattern text : list string) :
  like_chars ("%" :: pattern) text =
  like_chars pattern text ||
  match text with
  | [] => false
  | _ :: text' => like_chars ("%" :: pattern) text'
  end.
Proof. destruct text; reflexivity. Qed.




End Like.

Section Filtered.
Import SqlJsKVStore.






End Filtered.





Section RoundTrip.
Import SqlJsKVStore.


Lemma blob_row_of (m : MessageRecord) : blob (row_of m) = m.
Proof. reflexivity. Qed.




(** [slice(-0)] is [slice(0)]: nothing is dropped. *)
Lemma slice_minus_zero {A} (l : list A) : slice (- 0) l = l.
Proof.
  unfold slice. simpl. rewrite Z.min_l by lia. reflexivity.
Qed.

(** [slice(-n)] for a positive [n] keeps the last [n] elements. *)
Lemma slice_minus_positive {A} (n : Z) (l : list A) :
  0 < n -> slice (- n) l = lastn (Z.to_nat n) l.
Proof.
  intros Hn. unfold slice, lastn.
  destruct (Z.ltb_spec (- n) 0); [|lia]. f_equal. lia.
Qed.

(** The invariant of the table: both writers keep it. *)
Lemma addMessages_consistent (rows : list Row) (ms : list MessageRecord) :
  consistent rows ->
  exists rows', snd (addMessages ms (Some rows)) = Some rows'
                /\ consistent rows'.
Proof.
  intros Hc. eexists. split; [reflexivity|].
  apply Forall_app. split; [exact Hc|].
  apply Forall_forall. intros r Hr.
  apply in_map_iff in Hr as (m & <- & _). reflexivity.
Qed.

Lemma clearConversation_consistent (rows : list Row) (conversationId : string) :
  consistent rows ->
  exists rows', snd (clearConversation conversationId (Some rows)) = Some rows'
                /\ consistent rows'.
Proof.
  intros Hc. eexists. split; [reflexivity|].
  unfold consistent in *. rewrite Forall_forall in *.
  intros r Hr. apply filter_In in Hr as [Hr _]. auto.
Qed.
End RoundTrip.




(** C10.  [getRecentMessages] is [get] followed by [slice(-limit)].  With
    [limit = 0] this is [slice(0)]: the whole conversation, every stored
    record of it in ascending timestamp order.  With a positive [limit] it is
    the last [limit] records of that sequence (all of them when there are
    fewer), still in ascending order. *)
Theorem getRecentMessages_zero_and_positive
    (rows : list SqlJsKVStore.Row) (conversationId : string) :
  consistent rows ->
  exists all,
    SqlJsKVStore.get conversationId (Some rows) = (Returned all, Some rows)
    /\ Permutation all
         (map SqlJsKVStore.blob
              (filter (SqlJsKVStore.in_conversation conversationId) rows))
    /\ Sorted older_first all
    /\ SqlJsKVStore.getRecentMessages conversationId (Some 0) (Some rows)
       = (Returned all, Some rows)
    /\ forall limit, 0 < limit ->
         SqlJsKVStore.getRecentMessages conversationId (Some limit) (Some rows)
         = (Returned (lastn (Z.to_nat limit) all), Some rows)
         /\ List.length (lastn (Z.to_nat limit) all)
            = Nat.min (Z.to_nat limit) (List.length all)
         /\ Sorted older_first (lastn (Z.to_nat limit) all).
Proof.
  intros Hc.
  unfold SqlJsKVStore.getRecentMessages, SqlJsKVStore.get, bind,
    SqlJsKVStore.table, ret.
  eexists. split; [reflexivity|].
  set (chosen := filter _ rows).
  assert (Hsorted : Sorted older_first
            (map SqlJsKVStore.blob (SqlJsKVStore.order_by_timestamp_asc chosen))).
  { apply Sorted_map_blob with (R := row_older_first);
      [|apply order_asc_sorted].
    intros a b Ha Hb. unfold row_older_first, older_first.
    assert (Hin : forall r, In r (SqlJsKVStore.order_by_timestamp_asc chosen) ->
                            In r rows).
    { intros r Hr. apply (Permutation_in _ (order_asc_perm chosen)) in Hr.
      now apply filter_In in Hr. }
    now rewrite (consistent_timestamp rows a Hc (Hin a Ha)),
                (consistent_timestamp rows b Hc (Hin b Hb)). }
  split; [apply Permutation_map, order_asc_perm|].
  split; [exact Hsorted|].
  split; [now rewrite slice_minus_zero|].
  intros limit Hlimit.
  rewrite (slice_minus_positive limit _ Hlimit).
  split; [reflexivity|]. split.
  - unfold lastn. rewrite length_skipn. lia.
  - apply Sorted_skipn, Hsorted.
Qed.

Lemma getRecentMessages_zero_and_positive_witness :
  fst (SqlJsKVStore.getRecentMessages "conv-1" (Some 0) (Some history))
  = Returned [monday; tuesday; wednesday]
  /\ fst (SqlJsKVStore.getRecentMessages "conv-1" (Some 2) (Some history))
     = Returned [tuesday; wednesday].
Proof.
  destruct (getRecentMessages_zero_and_positive history "conv-1")
    as (all & Hall & _ & _ & Hzero & Hpos); [repeat constructor|].
  destruct (Hpos 2) as (Htwo & _); [lia|].
  rewrite Hzero, Htwo. injection Hall as <-. split; reflexivity.
Defined.

(** * Further properties of the sources *)

(** ** The token cache: refusals and the default lifetime *)

Section TokenFailures.
Import GraphClient.

(** The provider is asked exactly when the cache test fails. *)
Lemma getAccessToken_acquisitions (w : World) :
  acquisitions (snd (getAccessToken w))
  = match cached w with
    | Some _ => acquisitions w
    | None => S (acquisitions w)
    end.
Proof.
  unfold getAccessToken, bind, gets. destruct (cached w); [reflexivity|].
  unfold refresh, try_catch, acquire, bind, acquireTokenByClientCredential.
  destruct (identityProvider w (acquisitions w)) as [[r|]|e]; simpl;
    [destruct (truthy (auth_accessToken r))|..]; reflexivity.
Qed.
End TokenFailures.

(** X1.  When the cache has no valid token and the identity provider does
    not deliver one (it rejects, resolves to null, or resolves without an
    access token), [getAccessToken] rejects with the provider's error, or
    with "Failed to acquire access token", after logging it; the two cache
    fields are left as they were, so the next call asks the provider again. *)
Theorem getAccessToken_refused (w : World) (error : Thrown) :
  GraphClient.cached w = None ->
  refusal (identityProvider w (acquisitions w)) = Some error ->
  let w' := snd (GraphClient.getAccessToken w) in
  fst (GraphClient.getAccessToken w) = Threw error
  /\ accessToken w' = accessToken w
  /\ tokenExpiry w' = tokenExpiry w
  /\ GraphClient.cached w' = None
  /\ acquisitions w' = S (acquisitions w)
  /\ fetches w' = fetches w
  /\ journal w'
     = (journal w
        ++ [Acquire; Log LError "Failed to acquire Graph API access token:"])%list.
Proof.
  intros Hc Hr. unfold GraphClient.getAccessToken, bind, gets. rewrite Hc.
  unfold GraphClient.refresh, try_catch, GraphClient.acquire, bind,
    acquireTokenByClientCredential.
  unfold refusal in Hr.
  destruct (identityProvider w (acquisitions w)) as [[r|]|e]; simpl.
  - destruct (truthy (auth_accessToken r)); [discriminate|].
    injection Hr as <-. simpl. rewrite <- app_assoc.
    repeat split; trivial.
  - injection Hr as <-. rewrite <- app_assoc. repeat split; trivial.
  - injection Hr as <-. rewrite <- app_assoc. repeat split; trivial.
Qed.

Lemma getAccessToken_refused_witness :
  fst (GraphClient.getAccessToken
         (world 1700000000000 (fun _ => Resolves None) (always notFound)))
  = Threw (newError "Failed to acquire access token").
Proof.
  apply (getAccessToken_refused
           (world 1700000000000 (fun _ => Resolves None) (always notFound)));
    reflexivity.
Defined.

(** X2.  When the provider gives no expiry date, the token acquired at
    instant [t0] is served from the cache at every instant before
    [t0 + 55 min] without asking the provider, and from [t0 + 55 min] on the
    provider is asked again. *)
Theorem token_without_expiry_lives_55_minutes
    (w : World) (token : string) (t : Z) :
  GraphClient.cached w = None ->
  identityProvider w (acquisitions w) = Resolves (Some (mkAuth token None)) ->
  token <> "" ->
  let w1 := snd (GraphClient.getAccessToken w) in
  let later := GraphClient.getAccessToken (at_time t w1) in
  (t < clock w + 3300000 ->
   later = (Returned token, at_time t w1))
  /\ (clock w + 3300000 <= t ->
      acquisitions (snd later) = S (S (acquisitions w))).
Proof.
  intros Hc Hidp Hne w1 later.
  destruct (getAccessToken_miss w _ Hc Hidp Hne) as (_ & Ha & He & Hn & _).
  fold w1 in Ha, He, Hn.
  cbv [GraphClient.expiresOn_or_default auth_expiresOn auth_accessToken]
    in Ha, He.
  split; intros Ht; subst later.
  - apply getAccessToken_hit, cached_spec. simpl.
    repeat split; trivial.
    exists (clock w + 3600000 - 300000). split; [exact He|simpl; lia].
  - rewrite getAccessToken_acquisitions.
    destruct (GraphClient.cached (at_time t w1)) as [tok|] eqn:C.
    + apply cached_spec in C as (_ & _ & expiry & Hexp & Hlt).
      simpl in Hexp, Hlt. rewrite He in Hexp. injection Hexp as <-. lia.
    + simpl. now rewrite Hn.
Qed.

Lemma token_without_expiry_lives_55_minutes_witness :
  let w1 := snd (GraphClient.getAccessToken
                   (world 1700000000000 undated (always notFound))) in
  fst (GraphClient.getAccessToken (at_time 1700003299999 w1))
  = Returned "token-0"
  /\ acquisitions (snd (GraphClient.getAccessToken (at_time 1700003300000 w1)))
     = 2%nat.
Proof.
  intros w1.
  destruct (token_without_expiry_lives_55_minutes
              (world 1700000000000 undated (always notFound))
              "token-0" 1700003299999 eq_refl eq_refl) as (Hhit & _);
    [discriminate|].
  destruct (token_without_expiry_lives_55_minutes
              (world 1700000000000 undated (always notFound))
              "token-0" 1700003300000 eq_refl eq_refl) as (_ & Hmiss);
    [discriminate|].
  split.
  - unfold w1. rewrite Hhit; [reflexivity|simpl; lia].
  - apply Hmiss. simpl. lia.
Defined.

(** ** The public methods of the client *)

Section PublicMethods.
Import GraphClient.

(** Unfolds a method down to the answers of the world. *)
Ltac open_method :=
  unfold getMeetingTranscripts, getUserPlans, getPlanBuckets, getPlanTasks,
    getChatMembers, createPlannerTask, sendEmail, getTranscriptContent,
    updatePlannerTask, try_catch, graphGet, graphPost, bind, fetch, json,
    value_or_empty, log, modify, ret, throw, record.

(** Closes the three parts of [resolves_quietly] once the world is known. *)
Ltac close_quietly Hj :=
  repeat split;
  [ eexists; reflexivity
  | cbn [fetches snd fst]; lia
  | cbn [journal snd fst]; rewrite ?sleeps_app, ?Hj; simpl;
    rewrite ?app_nil_r; reflexivity ].

Lemma value_or_empty_quiet (j : Json) (w : World) :
  snd (value_or_empty j w) = w.
Proof.
  unfold value_or_empty, ret, throw.
  destruct j as [| | | | |fields]; trivial.
  destruct (field_of "value" fields) as [v|]; trivial.
  destruct (json_truthy v); trivial.
Qed.

(** A wrapper of [graphGet] that catches, logs and returns a default. *)
Lemma caught_graphGet_quietly {A} (endpoint line : string)
    (k : Json -> Eff (St := World) A) (fallback : A) (w : World) :
  (forall j w0, snd (k j w0) = w0) ->
  resolves_quietly
    (try_catch (bind (graphGet endpoint) k)
               (fun _ => bind (log LError line) (fun _ => ret fallback))) w.
Proof.
  intros Hk. unfold resolves_quietly.
  destruct (graphGet_at_most_one_fetch w endpoint) as (Hf & Hs).
  unfold try_catch. rewrite bind_run.
  destruct (graphGet endpoint w) as [[j|e] w1]; simpl in Hf, Hs.
  - pose proof (Hk j w1) as Hq.
    destruct (k j w1) as [[v|e] w2]; simpl in Hq; subst w2.
    + repeat split; [eexists; reflexivity|exact Hf|exact Hs].
    + unfold bind, log, modify, ret, record. simpl.
      repeat split; [eexists; reflexivity|exact Hf|].
      rewrite sleeps_app, Hs. simpl. apply app_nil_r.
  - unfold bind, log, modify, ret, record. simpl.
    repeat split; [eexists; reflexivity|exact Hf|].
    rewrite sleeps_app, Hs. simpl. apply app_nil_r.
Qed.

Lemma caught_graphPost_quietly {A} (endpoint line : string) (payload : Json)
    (k : Json -> Eff (St := World) A) (fallback : A) (w : World) :
  (forall j w0, exists v, fst (k j w0) = Returned v
                          /\ fetches (snd (k j w0)) = fetches w0
                          /\ sleeps (journal (snd (k j w0)))
                             = sleeps (journal w0)) ->
  resolves_quietly
    (try_catch (bind (graphPost endpoint payload) k)
               (fun _ => bind (log LError line) (fun _ => ret fallback))) w.
Proof.
  intros Hk. unfold resolves_quietly.
  destruct (graphPost_at_most_one_fetch w endpoint payload) as (Hf & Hs).
  unfold try_catch. rewrite bind_run.
  destruct (graphPost endpoint payload w) as [[j|e] w1]; simpl in Hf, Hs.
  - destruct (Hk j w1) as (v & Hv & Hkf & Hks).
    destruct (k j w1) as [[v'|e] w2]; simpl in Hv, Hkf, Hks; [|discriminate].
    repeat split; [eexists; reflexivity|simpl; lia|simpl; congruence].
  - unfold bind, log, modify, ret, record. simpl.
    repeat split; [eexists; reflexivity|exact Hf|].
    rewrite sleeps_app, Hs. simpl. apply app_nil_r.
Qed.

(** A failing request makes [graphGet] and [graphPost] reject. *)
Lemma graphGet_rejects (w : World) (endpoint : string) :
  request_fails w -> exists e, fst (graphGet endpoint w) = Threw e.
Proof.
  destruct (getAccessToken_quiet w) as (Hs & Hf & _).
  intros [(e & He)|[(e & He)|(r & Hr & Hok)]];
    unfold graphGet, bind;
    destruct (getAccessToken w) as [[token|e'] w1]; simpl in *;
    try discriminate; try (eexists; reflexivity);
    unfold fetch; rewrite Hs, Hf.
  - rewrite He. eexists; reflexivity.
  - rewrite Hr, Hok. eexists; reflexivity.
Qed.

Lemma graphPost_rejects (w : World) (endpoint : string) (payload : Json) :
  request_fails w -> exists e, fst (graphPost endpoint payload w) = Threw e.
Proof.
  destruct (getAccessToken_quiet w) as (Hs & Hf & _).
  intros [(e & He)|[(e & He)|(r & Hr & Hok)]];
    unfold graphPost, bind;
    destruct (getAccessToken w) as [[token|e'] w1]; simpl in *;
    try discriminate; try (eexists; reflexivity);
    unfold fetch; rewrite Hs, Hf.
  - rewrite He. eexists; reflexivity.
  - rewrite Hr, Hok. eexists; reflexivity.
Qed.

(** Logging changes neither the token state nor the answers to come. *)
Lemma request_fails_after_log (lvl : Level) (line : string) (w : World) :
  request_fails w -> request_fails (record (Log lvl line) w).
Proof.
  unfold request_fails.
  assert (Htok : fst (getAccessToken (record (Log lvl line) w))
                 = fst (getAccessToken w)).
  { unfold getAccessToken, bind, gets, cached. simpl.
    destruct (accessToken w) as [tok|]; [destruct (tokenExpiry w) as [ex|]|].
    - destruct (truthy tok && (clock w <? ex)); [reflexivity|].
      unfold refresh, try_catch, acquire, bind, acquireTokenByClientCredential.
      simpl.
      destruct (identityProvider w (acquisitions w)) as [[r|]|e]; simpl;
        [destruct (truthy (auth_accessToken r))|..]; reflexivity.
    - unfold refresh, try_catch, acquire, bind, acquireTokenByClientCredential.
      simpl.
      destruct (identityProvider w (acquisitions w)) as [[r|]|e]; simpl;
        [destruct (truthy (auth_accessToken r))|..]; reflexivity.
    - unfold refresh, try_catch, acquire, bind, acquireTokenByClientCredential.
      simpl.
      destruct (identityProvider w (acquisitions w)) as [[r|]|e]; simpl;
        [destruct (truthy (auth_accessToken r))|..]; reflexivity. }
  rewrite Htok. simpl. trivial.
Qed.

(** [sendEmail] step by step. *)
Lemma sendEmail_run (env : option string) (message : EmailMessage)
    (fromEmail : option string) (w : World) :
  sendEmail env message fromEmail w =
  let sender := senderOf env fromEmail in
  let w0 := record (Log LDebug ("Sending email from " ++ sender ++ " to "
                                ++ join ", " (map address (toRecipients message))))
                   w in
  match graphPost ("/users/" ++ sender ++ "/sendMail")
                  (JObject [("message", json_of_email message);
                            ("saveToSentItems", JBool true)]) w0 with
  | (Returned _, w1) =>
      (Returned true,
       record (Log LDebug ("Email sent successfully from " ++ sender)) w1)
  | (Threw _, w1) =>
      (Returned false, record (Log LError "Error sending email:") w1)
  end.
Proof.
  cbv zeta. unfold sendEmail, try_catch. cbv zeta. rewrite bind_run.
  change (log ?l ?x w) with (Returned tt, record (Log l x) w).
  cbv iota beta. rewrite bind_run.
  destruct (graphPost _ _ _) as [[j|e] w1]; reflexivity.
Qed.

Lemma sendEmail_quietly (env : option string) (message : EmailMessage)
    (fromEmail : option string) (w : World) :
  resolves_quietly (sendEmail env message fromEmail) w.
Proof.
  unfold resolves_quietly. rewrite sendEmail_run. cbv zeta.
  set (w0 := record _ w).
  assert (Hs0 : sleeps (journal w0) = sleeps (journal w)).
  { unfold w0, record. simpl. rewrite sleeps_app. simpl. apply app_nil_r. }
  match goal with
  | |- context [graphPost ?e ?p w0] =>
      destruct (graphPost_at_most_one_fetch w0 e p) as (Hf & Hs);
      destruct (graphPost e p w0) as [[j|er] w1]
  end;
    rewrite Hs0 in Hs; change (fetches w0) with (fetches w) in Hf;
    simpl in Hf, Hs; unfold record; simpl;
    (repeat split; [eexists; reflexivity|exact Hf|]);
    rewrite sleeps_app, Hs; simpl; apply app_nil_r.
Qed.

Lemma getTranscriptContent_quietly (userId meetingId transcriptId : string)
    (w : World) :
  resolves_quietly (getTranscriptContent userId meetingId transcriptId) w.
Proof.
  destruct (getAccessToken_quiet w) as (Hs & Hf & Hj).
  unfold resolves_quietly, getTranscriptContent, try_catch. rewrite bind_run.
  destruct (getAccessToken w) as [[token|e] w1]; simpl in Hs, Hf, Hj.
  - rewrite bind_run. unfold fetch. rewrite Hs, Hf.
    destruct (server w (fetches w)) as [r|e]; [destruct (ok r)|];
      unfold bind, log, modify, ret, throw, record; simpl;
      (repeat split; [eexists; reflexivity|lia|]);
      rewrite ?sleeps_app, Hj; simpl; now rewrite ?app_nil_r.
  - unfold bind, log, modify, ret, record. simpl.
    repeat split; [eexists; reflexivity|lia|].
    rewrite sleeps_app, Hj. simpl. apply app_nil_r.
Qed.

Lemma updatePlannerTask_quietly (taskId : string) (updates : Json)
    (etag : string) (w : World) :
  resolves_quietly (updatePlannerTask taskId updates etag) w.
Proof.
  destruct (getAccessToken_quiet w) as (Hs & Hf & Hj).
  unfold resolves_quietly, updatePlannerTask, try_catch. rewrite bind_run.
  destruct (getAccessToken w) as [[token|e] w1]; simpl in Hs, Hf, Hj.
  - rewrite bind_run. unfold fetch. rewrite Hs, Hf.
    destruct (server w (fetches w)) as [r|e]; [destruct (ok r)|];
      unfold bind, log, modify, ret, throw, record; simpl;
      (repeat split; [eexists; reflexivity|lia|]);
      rewrite ?sleeps_app, Hj; simpl; now rewrite ?app_nil_r.
  - unfold bind, log, modify, ret, record. simpl.
    repeat split; [eexists; reflexivity|lia|].
    rewrite sleeps_app, Hj. simpl. apply app_nil_r.
Qed.

Lemma getMeetingByJoinUrl_quietly (encode : string -> string)
    (joinUrl userId : string) (w : World) :
  resolves_quietly (getMeetingByJoinUrl encode joinUrl userId) w.
Proof.
  unfold getMeetingByJoinUrl.
  destruct (meetingIdMatch joinUrl); cbn [negb].
  - apply caught_graphGet_quietly. reflexivity.
  - unfold resolves_quietly, try_catch, bind, log, modify, ret, record. simpl.
    repeat split; [eexists; reflexivity|lia|].
    rewrite sleeps_app. simpl. apply app_nil_r.
Qed.
End PublicMethods.

(** X3.  None of the public methods of the client rejects: each resolves to
    a value, after at most one HTTP request and without sleeping, whatever
    the identity provider and the endpoint answer. *)
Theorem public_methods_resolve_quietly
    (w : World) (encode : string -> string) (env fromEmail : option string)
    (userId meetingId transcriptId planId chatId taskId joinUrl etag : string)
    (message : GraphClient.EmailMessage) (task updates : Json) :
  resolves_quietly (GraphClient.getMeetingByJoinUrl encode joinUrl userId) w
  /\ resolves_quietly (GraphClient.getMeetingTranscripts userId meetingId) w
  /\ resolves_quietly
       (GraphClient.getTranscriptContent userId meetingId transcriptId) w
  /\ resolves_quietly (GraphClient.sendEmail env message fromEmail) w
  /\ resolves_quietly (GraphClient.getUserPlans userId) w
  /\ resolves_quietly (GraphClient.getPlanBuckets planId) w
  /\ resolves_quietly (GraphClient.createPlannerTask task) w
  /\ resolves_quietly (GraphClient.updatePlannerTask taskId updates etag) w
  /\ resolves_quietly (GraphClient.getPlanTasks planId) w
  /\ resolves_quietly (GraphClient.getChatMembers chatId) w.
Proof.
  refine (conj (getMeetingByJoinUrl_quietly _ _ _ _)
         (conj (caught_graphGet_quietly _ _ _ _ _ value_or_empty_quiet)
         (conj (getTranscriptContent_quietly _ _ _ _)
         (conj (sendEmail_quietly _ _ _ _)
         (conj (caught_graphGet_quietly _ _ _ _ _ value_or_empty_quiet)
         (conj (caught_graphGet_quietly _ _ _ _ _ value_or_empty_quiet)
         (conj _
         (conj (updatePlannerTask_quietly _ _ _ _)
         (conj (caught_graphGet_quietly _ _ _ _ _ value_or_empty_quiet)
               (caught_graphGet_quietly _ _ _ _ _ value_or_empty_quiet)))))))))).
  apply caught_graphPost_quietly. intros j w0.
  eexists. unfold bind, log, modify, ret, record. simpl.
  repeat split. rewrite sleeps_app. simpl. apply app_nil_r.
Qed.

Section FailedRequests.
Import GraphClient.

Lemma getAccessToken_after_log (lvl : Level) (line : string) (w : World) :
  fst (getAccessToken (record (Log lvl line) w)) = fst (getAccessToken w).
Proof.
  unfold getAccessToken, bind, gets, cached. simpl.
  destruct (accessToken w) as [tok|]; [destruct (tokenExpiry w) as [ex|]|];
    try destruct (truthy tok && (clock w <? ex)); try reflexivity;
    unfold refresh, try_catch, acquire, bind, acquireTokenByClientCredential;
    simpl;
    destruct (identityProvider w (acquisitions w)) as [[r|]|e]; simpl;
    try destruct (truthy (auth_accessToken r)); reflexivity.
Qed.

Lemma caught_graphGet_fails {A} (endpoint line : string)
    (k : Json -> Eff (St := World) A) (fallback : A) (w : World) :
  request_fails w ->
  fst (try_catch (bind (graphGet endpoint) k)
                 (fun _ => bind (log LError line) (fun _ => ret fallback)) w)
  = Returned fallback.
Proof.
  intros Hfail. destruct (graphGet_rejects w endpoint Hfail) as (e & He).
  unfold try_catch. rewrite bind_run.
  destruct (graphGet endpoint w) as [o w1]. simpl in He. subst o. reflexivity.
Qed.
End FailedRequests.

(** X4.  When the request cannot succeed (no token is obtained, the network
    fails, or the answer has a status outside 200-299), every public method
    returns its neutral value: the empty array for the collection getters,
    [null] for [getMeetingByJoinUrl] and [createPlannerTask], the empty
    string for [getTranscriptContent], [false] for [sendEmail]. *)
Theorem public_methods_on_failed_request
    (w : World) (encode : string -> string) (env fromEmail : option string)
    (userId meetingId transcriptId planId chatId joinUrl : string)
    (message : GraphClient.EmailMessage) (task : Json) :
  request_fails w ->
  fst (GraphClient.getMeetingByJoinUrl encode joinUrl userId w) = Returned None
  /\ fst (GraphClient.getMeetingTranscripts userId meetingId w)
     = Returned (JArray [])
  /\ fst (GraphClient.getTranscriptContent userId meetingId transcriptId w)
     = Returned ""
  /\ fst (GraphClient.sendEmail env message fromEmail w) = Returned false
  /\ fst (GraphClient.getUserPlans userId w) = Returned (JArray [])
  /\ fst (GraphClient.getPlanBuckets planId w) = Returned (JArray [])
  /\ fst (GraphClient.createPlannerTask task w) = Returned None
  /\ fst (GraphClient.getPlanTasks planId w) = Returned (JArray [])
  /\ fst (GraphClient.getChatMembers chatId w) = Returned (JArray []).
Proof.
  intros Hfail.
  refine (conj _ (conj (caught_graphGet_fails _ _ _ _ _ Hfail)
         (conj _ (conj _
         (conj (caught_graphGet_fails _ _ _ _ _ Hfail)
         (conj (caught_graphGet_fails _ _ _ _ _ Hfail)
         (conj _
         (conj (caught_graphGet_fails _ _ _ _ _ Hfail)
               (caught_graphGet_fails _ _ _ _ _ Hfail))))))))).
  - unfold GraphClient.getMeetingByJoinUrl.
    destruct (GraphClient.meetingIdMatch joinUrl); cbn [negb].
    + apply (caught_graphGet_fails _ _ _ _ _ Hfail).
    + reflexivity.
  - destruct (getAccessToken_quiet w) as (Hs & Hf & _).
    unfold GraphClient.getTranscriptContent, try_catch. rewrite bind_run.
    destruct Hfail as [(e & He)|[(e & He)|(r & Hr & Hok)]];
      destruct (GraphClient.getAccessToken w) as [[token|e'] w1];
      simpl in *; try discriminate; try reflexivity;
      rewrite bind_run; unfold fetch; rewrite Hs, Hf.
    + rewrite He. reflexivity.
    + rewrite Hr, Hok. reflexivity.
  - rewrite sendEmail_run. cbv zeta.
    match goal with
    | |- context [GraphClient.graphPost ?e ?p ?w0] =>
        destruct (graphPost_rejects w0 e p) as (er & Her);
        [apply request_fails_after_log, Hfail|];
        destruct (GraphClient.graphPost e p w0) as [o w1]
    end.
    simpl in Her. subst o. reflexivity.
  - destruct (graphPost_rejects w "/planner/tasks" task Hfail) as (e & He).
    unfold GraphClient.createPlannerTask, try_catch. rewrite bind_run.
    destruct (GraphClient.graphPost "/planner/tasks" task w) as [o w1].
    simpl in He. subst o. reflexivity.
Qed.

Lemma public_methods_on_failed_request_witness :
  fst (GraphClient.getUserPlans "alice@contoso.com"
         (cold (always serviceUnavailable))) = Returned (JArray [])
  /\ fst (GraphClient.sendEmail None summaryMail None
            (cold (always serviceUnavailable))) = Returned false.
Proof.
  assert (Hfail : request_fails (cold (always serviceUnavailable))).
  { right. right. exists serviceUnavailable. split; reflexivity. }
  destruct (public_methods_on_failed_request
              (cold (always serviceUnavailable)) (fun u => u) None None
              "alice@contoso.com" "m" "t" "p" "c" "https://teams" summaryMail
              task Hfail) as (_ & _ & _ & Hmail & Hplans & _).
  split; assumption.
Defined.

Section RequestShape.
Import GraphClient.

(** Finishes a goal on the requests of a journal that grew by a few events. *)
Ltac count_requests Hq :=
  simpl; rewrite ?requests_app, ?Hq; simpl;
  rewrite ?app_nil_r; reflexivity.

Lemma graphGet_request (w : World) (endpoint token : string) :
  fst (getAccessToken w) = Returned token ->
  requests (journal (snd (graphGet endpoint w)))
  = List.app (requests (journal w))
        [Fetch GET (graphUrl endpoint) (jsonHeaders token) None].
Proof.
  intros Htok. pose proof (getAccessToken_no_request w) as Hq.
  unfold graphGet. rewrite bind_run.
  destruct (getAccessToken w) as [o w1]. simpl in Htok, Hq. subst o.
  rewrite bind_run. unfold fetch.
  destruct (server w1 (fetches w1)) as [r|e]; [destruct (ok r)|];
    unfold bind, log, modify, throw, json, record; count_requests Hq.
Qed.

Lemma graphPost_request (w : World) (endpoint token : string) (payload : Json) :
  fst (getAccessToken w) = Returned token ->
  requests (journal (snd (graphPost endpoint payload w)))
  = List.app (requests (journal w))
        [Fetch POST (graphUrl endpoint) (jsonHeaders token) (Some payload)].
Proof.
  intros Htok. pose proof (getAccessToken_no_request w) as Hq.
  unfold graphPost. rewrite bind_run.
  destruct (getAccessToken w) as [o w1]. simpl in Htok, Hq. subst o.
  rewrite bind_run. unfold fetch.
  destruct (server w1 (fetches w1)) as [r|e];
    [destruct (ok r); [destruct (status r =? 204)|]|];
    unfold bind, log, modify, throw, ret, json, record; count_requests Hq.
Qed.

Lemma graphPatch_request (w : World) (endpoint token : string) (payload : Json) :
  fst (getAccessToken w) = Returned token ->
  requests (journal (snd (_graphPatch endpoint payload w)))
  = List.app (requests (journal w))
        [Fetch PATCH (graphUrl endpoint) (jsonHeaders token) (Some payload)].
Proof.
  intros Htok. pose proof (getAccessToken_no_request w) as Hq.
  unfold _graphPatch. rewrite bind_run.
  destruct (getAccessToken w) as [o w1]. simpl in Htok, Hq. subst o.
  rewrite bind_run. unfold fetch.
  destruct (server w1 (fetches w1)) as [r|e];
    [destruct (ok r); [destruct (status r =? 204)|]|];
    unfold bind, log, modify, throw, ret, json, record; count_requests Hq.
Qed.

Lemma getTranscriptContent_request (w : World)
    (userId meetingId transcriptId token : string) :
  fst (getAccessToken w) = Returned token ->
  requests (journal (snd (getTranscriptContent userId meetingId transcriptId w)))
  = List.app (requests (journal w))
        [Fetch GET ("https://graph.microsoft.com/v1.0/users/" ++ userId
                    ++ "/onlineMeetings/" ++ meetingId ++ "/transcripts/"
                    ++ transcriptId ++ "/content?$format=text/vtt")
               [("Authorization", "Bearer " ++ token)] None].
Proof.
  intros Htok. pose proof (getAccessToken_no_request w) as Hq.
  unfold getTranscriptContent, try_catch. rewrite bind_run.
  destruct (getAccessToken w) as [o w1]. simpl in Htok, Hq. subst o.
  rewrite bind_run. unfold fetch.
  destruct (server w1 (fetches w1)) as [r|e]; [destruct (ok r)|];
    unfold bind, log, modify, throw, ret, record; count_requests Hq.
Qed.

(** The result of [graphPost] once the token is there and the endpoint
    answers. *)
Lemma graphPost_answer (w : World) (endpoint token : string) (payload : Json)
    (r : Response) :
  fst (getAccessToken w) = Returned token ->
  server w (fetches w) = Responds r ->
  (exists j, fst (graphPost endpoint payload w) = Returned j)
  <-> ok r && ((status r =? 204) || is_json r) = true.
Proof.
  intros Htok Hsrv.
  destruct (getAccessToken_quiet w) as (Hs & Hf & _).
  unfold graphPost. rewrite bind_run.
  destruct (getAccessToken w) as [o w1]. simpl in Htok, Hs, Hf. subst o.
  rewrite bind_run. unfold fetch. rewrite Hs, Hf, Hsrv.
  unfold is_json, json, json_outcome.
  destruct (ok r); simpl.
  - destruct (status r =? 204); simpl.
    + split; [reflexivity|intros _; eexists; reflexivity].
    + destruct (body r); simpl; split; try discriminate;
        try (intros _; eexists; reflexivity); try reflexivity;
        intros (j & Hj); discriminate.
  - split; [intros (j & Hj); discriminate|discriminate].
Qed.
End RequestShape.

(** X5.  Once a token is there and the endpoint answers, [sendEmail] posts
    the message once to [/users/<sender>/sendMail], the sender being
    [fromEmail], else BOT_EMAIL_ADDRESS, else the built-in address, and
    returns [true] exactly when the answer is 204, or another 2xx answer
    whose body is JSON.  An answer [202 Accepted] without body therefore
    makes it return [false]. *)
Theorem sendEmail_result
    (w : World) (env fromEmail : option string)
    (message : GraphClient.EmailMessage) (token : string) (r : Response) :
  fst (GraphClient.getAccessToken w) = Returned token ->
  server w (fetches w) = Responds r ->
  let done := GraphClient.sendEmail env message fromEmail w in
  fst done = Returned (ok r && ((status r =? 204) || is_json r))
  /\ requests (journal (snd done))
     = List.app (requests (journal w))
           [Fetch POST
              (graphUrl ("/users/" ++ GraphClient.senderOf env fromEmail
                         ++ "/sendMail"))
              (jsonHeaders token)
              (Some (JObject [("message", GraphClient.json_of_email message);
                              ("saveToSentItems", JBool true)]))].
Proof.
  intros Htok Hsrv done. subst done. rewrite sendEmail_run. cbv zeta.
  match goal with
  | |- context [GraphClient.graphPost ?e ?p ?w0] =>
      pose proof (graphPost_answer w0 e token p r) as Hans;
      pose proof (graphPost_request w0 e token p) as Hreq;
      destruct (GraphClient.graphPost e p w0) as [[j|er] w1]
  end;
    rewrite getAccessToken_after_log in Hans, Hreq;
    specialize (Hans Htok Hsrv); specialize (Hreq Htok);
    simpl in Hans, Hreq |- *.
  - destruct Hans as [Hans _]. rewrite Hans by (eexists; reflexivity).
    split; [reflexivity|].
    rewrite requests_app, Hreq, requests_app. simpl. now rewrite !app_nil_r.
  - destruct (ok r && ((status r =? 204) || is_json r)).
    + destruct Hans as [_ Hans]. destruct (Hans eq_refl) as (j & Hj).
      discriminate.
    + split; [reflexivity|].
      rewrite requests_app, Hreq, requests_app. simpl. now rewrite !app_nil_r.
Qed.

Lemma sendEmail_result_witness :
  fst (GraphClient.sendEmail None summaryMail None (cold (always accepted)))
  = Returned false
  /\ fst (GraphClient.sendEmail None summaryMail None (cold (always noContent)))
     = Returned true.
Proof.
  destruct (sendEmail_result (cold (always accepted)) None None summaryMail
              "token-1" accepted eq_refl eq_refl) as (Ha & _).
  destruct (sendEmail_result (cold (always noContent)) None None summaryMail
              "token-1" noContent eq_refl eq_refl) as (Hn & _).
  split; assumption.
Defined.

(** X6.  Every request carries the bearer token that [getAccessToken] has
    just returned: [graphGet], [graphPost] and [_graphPatch] issue exactly
    one request with the method, URL and payload given and the headers
    [Authorization] and [Content-Type]; [updatePlannerTask] adds
    [If-Match: <etag>]; [getTranscriptContent] sends [Authorization] alone.
    This holds whatever the endpoint answers. *)
Theorem requests_carry_bearer_token
    (w : World) (endpoint token taskId etag userId meetingId transcriptId : string)
    (payload : Json) :
  fst (GraphClient.getAccessToken w) = Returned token ->
  let sent (after : World) (request : Event) :=
    requests (journal after) = List.app (requests (journal w)) [request] in
  sent (snd (GraphClient.graphGet endpoint w))
       (Fetch GET (graphUrl endpoint) (jsonHeaders token) None)
  /\ sent (snd (GraphClient.graphPost endpoint payload w))
          (Fetch POST (graphUrl endpoint) (jsonHeaders token) (Some payload))
  /\ sent (snd (GraphClient._graphPatch endpoint payload w))
          (Fetch PATCH (graphUrl endpoint) (jsonHeaders token) (Some payload))
  /\ sent (snd (GraphClient.updatePlannerTask taskId payload etag w))
          (Fetch PATCH (graphUrl ("/planner/tasks/" ++ taskId))
                 [("Authorization", "Bearer " ++ token);
                  ("Content-Type", "application/json");
                  ("If-Match", etag)]
                 (Some payload))
  /\ sent (snd (GraphClient.getTranscriptContent userId meetingId
                  transcriptId w))
          (Fetch GET ("https://graph.microsoft.com/v1.0/users/" ++ userId
                      ++ "/onlineMeetings/" ++ meetingId ++ "/transcripts/"
                      ++ transcriptId ++ "/content?$format=text/vtt")
                 [("Authorization", "Bearer " ++ token)] None).
Proof.
  intros Htok sent. subst sent. cbv beta.
  refine (conj (graphGet_request _ _ _ Htok)
         (conj (graphPost_request _ _ _ _ Htok)
         (conj (graphPatch_request _ _ _ _ Htok)
         (conj (updatePlannerTask_request _ _ _ _ _ Htok)
               (getTranscriptContent_request _ _ _ _ _ Htok))))).
Qed.

Lemma requests_carry_bearer_token_witness :
  requests (journal (snd (GraphClient.updatePlannerTask "task-1" task "W/etag-1"
                            (cold (always preconditionFailed)))))
  = [Fetch PATCH "https://graph.microsoft.com/v1.0/planner/tasks/task-1"
           [("Authorization", "Bearer token-1");
            ("Content-Type", "application/json");
            ("If-Match", "W/etag-1")]
           (Some task)].
Proof.
  destruct (requests_carry_bearer_token (cold (always preconditionFailed))
              "/me" "token-1" "task-1" "W/etag-1" "u" "m" "t" task eq_refl)
    as (_ & _ & _ & Hupdate & _).
  exact Hupdate.
Defined.

Section JoinUrl.
Import GraphClient.

Lemma startsWith_app (p s : string) : startsWith p (p ++ s) = true.
Proof.
  induction p as [|a p IH]; simpl; trivial.
  now rewrite Ascii.eqb_refl.
Qed.

Lemma startsWith_split (p s : string) :
  startsWith p s = true -> exists t, s = p ++ t.
Proof.
  revert s. induction p as [|a p IH]; intros s H; simpl in *.
  - now exists s.
  - destruct s as [|b s]; [discriminate|].
    apply andb_true_iff in H as [Hab Hp].
    apply Ascii.eqb_eq in Hab as <-.
    destruct (IH s Hp) as (t & ->). now exists t.
Qed.

Lemma drop_app (p s : string) : drop (String.length p) (p ++ s) = s.
Proof. induction p as [|a p IH]; simpl; trivial. Qed.

Lemma span_until_split (stop : ascii) (s taken left : string) :
  span_until stop s = (taken, left) ->
  s = taken ++ left /\ free_of stop taken = true.
Proof.
  revert taken left. induction s as [|c s IH]; intros taken left; simpl.
  - intros [= <- <-]. split; reflexivity.
  - destruct (Ascii.eqb c stop) eqn:E.
    + intros [= <- <-]. split; reflexivity.
    + destruct (span_until stop s) as [t l]. intros [= <- <-].
      destruct (IH t l eq_refl) as (-> & Hfree).
      split; [reflexivity|]. simpl. now rewrite E, Hfree.
Qed.

Lemma span_until_stop (stop : ascii) (taken rest : string) :
  free_of stop taken = true ->
  span_until stop (taken ++ String stop rest) = (taken, String stop rest).
Proof.
  induction taken as [|c t IH]; simpl; intros H.
  - now rewrite Ascii.eqb_refl.
  - apply andb_true_iff in H as [Hc Ht]. apply negb_true_iff in Hc.
    rewrite Hc, (IH Ht). reflexivity.
Qed.

Lemma meeting_id_here_spec (s : string) :
  meeting_id_here s = true <->
  exists id after, s = "19:meeting_" ++ id ++ "@thread" ++ after
                   /\ id <> "" /\ free_of "@" id = true.
Proof.
  unfold meeting_id_here. split.
  - intros H. apply andb_true_iff in H as [Hp H].
    apply startsWith_split in Hp as (t & ->).
    change 11%nat with (String.length "19:meeting_") in H.
    rewrite drop_app in H.
    destruct (span_until "@" t) as [id tail] eqn:E.
    apply andb_true_iff in H as [Hid Htail].
    apply span_until_split in E as (-> & Hfree).
    apply startsWith_split in Htail as (after & ->).
    exists id, after. repeat split; trivial.
    intros ->. discriminate.
  - intros (id & after & -> & Hid & Hfree).
    rewrite startsWith_app.
    change 11%nat with (String.length "19:meeting_").
    rewrite drop_app.
    change ("@thread" ++ after) with (String "@" ("thread" ++ after)).
    rewrite (span_until_stop "@" id _ Hfree).
    unfold truthy. destruct (String.eqb_spec id ""); [contradiction|].
    reflexivity.
Qed.

(** The matcher finds the pattern wherever it stands in the text. *)
Lemma meetingIdMatch_spec (s : string) :
  meetingIdMatch s = true <-> has_meeting_id s.
Proof.
  unfold has_meeting_id. split.
  - induction s as [|c s IH]; cbn [meetingIdMatch]; intros H;
      apply orb_true_iff in H as [H|H]; try discriminate.
    + apply meeting_id_here_spec in H as (id & after & E & Hid & Hfree).
      now exists "", id, after.
    + destruct (IH H) as (before & id & after & -> & Hid & Hfree).
      now exists (String c before), id, after.
  - intros (before & id & after & -> & Hid & Hfree).
    induction before as [|c before IH].
    + assert (H : meeting_id_here ("19:meeting_" ++ id ++ "@thread" ++ after)
                  = true)
        by (apply meeting_id_here_spec; now exists id, after).
      change ("" ++ ?x) with x.
      destruct ("19:meeting_" ++ id ++ "@thread" ++ after);
        cbn [meetingIdMatch]; now rewrite H.
    + change (String c before ++ ?x) with (String c (before ++ x)).
      cbn [meetingIdMatch]. rewrite IH. apply orb_true_r.
Qed.
End JoinUrl.

(** X7.  [getMeetingByJoinUrl] looks the meeting up only when the join URL
    contains [19:meeting_<id>@thread] with a non-empty [id] free of [@].
    Otherwise it returns [null] after one warning, without asking for a
    token and without any request.  When the pattern is there and a token
    is obtained, it issues one GET on the user's online meetings filtered by
    the encoded join URL. *)
Theorem getMeetingByJoinUrl_needs_meeting_id
    (w : World) (encode : string -> string) (joinUrl userId : string) :
  (~ has_meeting_id joinUrl ->
   GraphClient.getMeetingByJoinUrl encode joinUrl userId w
   = (Returned None,
      record (Log LWarn "Could not extract meeting ID from join URL") w))
  /\ (has_meeting_id joinUrl ->
      forall token, fst (GraphClient.getAccessToken w) = Returned token ->
        requests (journal (snd (GraphClient.getMeetingByJoinUrl encode joinUrl
                                  userId w)))
        = List.app (requests (journal w))
            [Fetch GET
               (graphUrl ("/users/" ++ userId
                          ++ "/onlineMeetings?$filter=JoinWebUrl eq '"
                          ++ encode joinUrl ++ "'"))
               (jsonHeaders token) None]).
Proof.
  split.
  - intros Hno. unfold GraphClient.getMeetingByJoinUrl.
    destruct (GraphClient.meetingIdMatch joinUrl) eqn:M.
    + elim Hno. now apply meetingIdMatch_spec.
    + reflexivity.
  - intros Hyes token Htok. apply meetingIdMatch_spec in Hyes.
    unfold GraphClient.getMeetingByJoinUrl. rewrite Hyes. cbn [negb].
    pose proof (graphGet_request w
                  ("/users/" ++ userId
                   ++ "/onlineMeetings?$filter=JoinWebUrl eq '"
                   ++ encode joinUrl ++ "'") token Htok) as Hreq.
    unfold try_catch. rewrite bind_run.
    destruct (GraphClient.graphGet _ w) as [[j|e] w1]; simpl in Hreq |- *.
    + exact Hreq.
    + rewrite requests_app, Hreq. simpl. now rewrite app_nil_r.
Qed.

(** ** The retry loop of the revised client *)

Section RetryLoop.
Import GraphClientRevised.

Variables (method : Method) (no_content : bool) (url token : string)
          (payload : option Json).

(** One turn of the loop: a request is issued; a 2xx answer settles the
    call; any other answer, or a network failure, is followed by a sleep of
    [backoff attempt] and another turn, unless this was the last attempt. *)
Lemma turn_facts (attempt retries : Z) (w : World) :
  let t := fst (turn method no_content url token payload attempt retries w) in
  let w' := snd (turn method no_content url token payload attempt retries w) in
  fetches w' = S (fetches w) /\ server w' = server w
  /\ match server w (fetches w) with
     | Responds r =>
         if ok r then
           t = Returned (Settle (settled no_content r))
           /\ sleeps (journal w') = sleeps (journal w)
         else if attempt <? retries then
           (exists e, t = Returned (Again e))
           /\ sleeps (journal w') = (sleeps (journal w) ++ [backoff attempt])%list
         else
           sleeps (journal w') = sleeps (journal w)
           /\ t = Returned
                    (if terminal r then
                       Again (newError ("Graph API error: "
                                        ++ string_of_Z (status r)))
                     else Settle (settled no_content r))
     | NetworkFailure e =>
         t = Returned (Again e)
         /\ sleeps (journal w')
            = if attempt <? retries
              then (sleeps (journal w) ++ [backoff attempt])%list
              else sleeps (journal w)
     end.
Proof.
  unfold turn, try_catch. rewrite bind_run. unfold fetch, settled.
  destruct (server w (fetches w)) as [r|e].
  - destruct (ok r) eqn:Hok; cbn [negb].
    + destruct (no_content && (status r =? 204)); unfold ret; simpl;
        repeat split; rewrite sleeps_app; simpl; apply app_nil_r.
    + destruct (terminal r) eqn:Ht.
      * unfold caught, bind, log, modify, throw, sleep, ret, record.
        destruct (attempt <? retries); simpl;
          repeat split; try (eexists; reflexivity);
          rewrite ?sleeps_app; simpl; rewrite ?app_nil_r; reflexivity.
      * destruct (attempt <? retries).
        -- unfold bind, log, modify, sleep, ret, record. simpl.
           repeat split; try (eexists; reflexivity).
           rewrite ?sleeps_app. simpl. rewrite ?app_nil_r. reflexivity.
        -- assert (H204 : (status r =? 204) = false).
           { unfold ok in Hok. destruct (Z.eqb_spec (status r) 204) as [E|];
               [rewrite E in Hok; discriminate|reflexivity]. }
           rewrite H204, andb_false_r. unfold ret. simpl.
           repeat split. rewrite sleeps_app. simpl. apply app_nil_r.
  - unfold caught, bind, log, modify, sleep, ret, record.
    destruct (attempt <? retries); simpl;
      repeat split; rewrite ?sleeps_app; simpl; rewrite ?app_nil_r;
      reflexivity.
Qed.

Lemma attempts_step (retries : Z) (n : nat) (attempt : Z)
    (lastError : option Thrown) (w : World) :
  attempts method no_content url token payload retries (S n) attempt
           lastError w
  = match turn method no_content url token payload attempt retries w with
    | (Returned (Settle (Returned v)), w') => (Returned v, w')
    | (Returned (Settle (Threw e)), w') => (Threw e, w')
    | (Returned (Again e), w') =>
        attempts method no_content url token payload retries n
                 (attempt + 1) (Some e) w'
    | (Threw e, w') => (Threw e, w')
    end.
Proof.
  cbn [attempts]. rewrite bind_run.
  destruct (turn _ _ _ _ _ _ _ w) as [[[[v|e]|e]|e] w']; reflexivity.
Qed.

(** Success at the attempt of index [k]: the call settles there. *)
Lemma attempts_recover (retries : Z) (r : Response) (k : nat) :
  forall (n : nat) (attempt : Z) (lastError : option Thrown) (w : World),
    attempt + Z.of_nat n = retries + 1 -> (k < n)%nat ->
    (forall i, (i < k)%nat -> failed (server w (fetches w + i)) = true) ->
    server w (fetches w + k) = Responds r -> ok r = true ->
    let done := attempts method no_content url token payload retries n
                         attempt lastError w in
    fst done = settled no_content r
    /\ fetches (snd done) = (fetches w + k + 1)%nat
    /\ sleeps (journal (snd done))
       = (sleeps (journal w) ++ backoffs attempt k)%list.
Proof.
  induction k as [|k IH]; intros n attempt lastError w Hinv Hk Hfail Hsrv Hok;
    (destruct n as [|n]; [lia|]); cbv zeta; rewrite attempts_step;
    pose proof (turn_facts attempt retries w) as (Hf & Hs & Hturn);
    destruct (turn _ _ _ _ _ _ _ w) as [t w']; cbn [fst snd] in Hf, Hs, Hturn.
  - rewrite Nat.add_0_r in Hsrv. rewrite Hsrv, Hok in Hturn.
    destruct Hturn as (-> & Hsl).
    destruct (settled no_content r) as [v|e]; cbn [fst snd];
      repeat split; trivial; try lia; rewrite Hsl; simpl; now rewrite app_nil_r.
  - assert (Hlt : (attempt <? retries) = true) by (apply Z.ltb_lt; lia).
    pose proof (Hfail 0%nat ltac:(lia)) as H0. rewrite Nat.add_0_r in H0.
    assert (Hnext : exists e, t = Returned (Again e)
              /\ sleeps (journal w')
                 = (sleeps (journal w) ++ [backoff attempt])%list).
    { unfold failed in H0.
      destruct (server w (fetches w)) as [r0|e0].
      - apply negb_true_iff in H0. rewrite H0, Hlt in Hturn.
        destruct Hturn as ((e & ->) & Hsl). now exists e.
      - rewrite Hlt in Hturn. destruct Hturn as (-> & Hsl). now exists e0. }
    destruct Hnext as (e & -> & Hsl).
    destruct (IH n (attempt + 1) (Some e) w') as (Hres & Hfet & Hsle);
      trivial; try lia.
    + intros i Hi. rewrite Hs, Hf.
      replace (S (fetches w) + i)%nat with (fetches w + S i)%nat by lia.
      apply Hfail. lia.
    + rewrite Hs, Hf.
      replace (S (fetches w) + k)%nat with (fetches w + S k)%nat by lia.
      exact Hsrv.
    + repeat split; trivial; [lia|].
      rewrite Hsle, Hsl, <- app_assoc. reflexivity.
Qed.

(** Failure at every attempt: the loop stops after the last one, which
    decides the outcome. *)
Lemma attempts_exhaust (retries : Z) (n : nat) :
  forall (attempt : Z) (lastError : option Thrown) (w : World),
    attempt + Z.of_nat (S n) = retries + 1 ->
    (forall i, (i <= n)%nat -> failed (server w (fetches w + i)) = true) ->
    let done := attempts method no_content url token payload retries (S n)
                         attempt lastError w in
    fst done = exhausted no_content (server w (fetches w + n))
    /\ fetches (snd done) = (fetches w + S n)%nat
    /\ sleeps (journal (snd done))
       = (sleeps (journal w) ++ backoffs attempt n)%list.
Proof.
  induction n as [|n IH]; intros attempt lastError w Hinv Hfail;
    cbv zeta; rewrite attempts_step;
    pose proof (turn_facts attempt retries w) as (Hf & Hs & Hturn);
    destruct (turn _ _ _ _ _ _ _ w) as [t w']; cbn [fst snd] in Hf, Hs, Hturn;
    pose proof (Hfail 0%nat ltac:(lia)) as H0; rewrite Nat.add_0_r in H0.
  - assert (Hlt : (attempt <? retries) = false) by (apply Z.ltb_ge; lia).
    rewrite Nat.add_0_r. unfold failed in H0. unfold exhausted.
    destruct (server w (fetches w)) as [r0|e0].
    + apply negb_true_iff in H0. rewrite H0, Hlt in Hturn.
      destruct Hturn as (Hsl & ->).
      destruct (terminal r0).
      * cbn [attempts]. unfold bind, log, modify, throw, record. simpl.
        repeat split; [lia|].
        rewrite sleeps_app, Hsl. simpl. now rewrite !app_nil_r.
      * destruct (settled no_content r0) as [v|e]; cbn [fst snd];
          repeat split; trivial; try lia; rewrite Hsl; simpl;
          now rewrite app_nil_r.
    + rewrite Hlt in Hturn. destruct Hturn as (-> & Hsl).
      cbn [attempts]. unfold bind, log, modify, throw, record. simpl.
      repeat split; [lia|].
      rewrite sleeps_app, Hsl. simpl. now rewrite !app_nil_r.
  - assert (Hlt : (attempt <? retries) = true) by (apply Z.ltb_lt; lia).
    assert (Hnext : exists e, t = Returned (Again e)
              /\ sleeps (journal w')
                 = (sleeps (journal w) ++ [backoff attempt])%list).
    { unfold failed in H0.
      destruct (server w (fetches w)) as [r0|e0].
      - apply negb_true_iff in H0. rewrite H0, Hlt in Hturn.
        destruct Hturn as ((e & ->) & Hsl). now exists e.
      - rewrite Hlt in Hturn. destruct Hturn as (-> & Hsl). now exists e0. }
    destruct Hnext as (e & -> & Hsl).
    destruct (IH (attempt + 1) (Some e) w') as (Hres & Hfet & Hsle);
      try lia.
    + intros i Hi. rewrite Hs, Hf.
      replace (S (fetches w) + i)%nat with (fetches w + S i)%nat by lia.
      apply Hfail. lia.
    + rewrite Hs, Hf in Hres.
      replace (S (fetches w) + n)%nat with (fetches w + S n)%nat in Hres by lia.
      repeat split; trivial; [lia|].
      rewrite Hsle, Hsl, <- app_assoc. reflexivity.
Qed.

(** Whatever the answers: at most [n] requests, and before each request
    but the first the delay of the schedule, nothing else. *)
Lemma attempts_bounded (retries : Z) (n : nat) :
  forall (attempt : Z) (lastError : option Thrown) (w : World),
    attempt + Z.of_nat n = retries + 1 ->
    let done := attempts method no_content url token payload retries n
                         attempt lastError w in
    exists m, (m <= n)%nat /\ (0 < n -> 0 < m)%nat
              /\ fetches (snd done) = (fetches w + m)%nat
              /\ sleeps (journal (snd done))
                 = (sleeps (journal w) ++ backoffs attempt (m - 1))%list.
Proof.
  induction n as [|n IH]; intros attempt lastError w Hinv; cbv zeta.
  - exists 0%nat. cbn [attempts]. unfold bind, log, modify, throw, record.
    simpl. repeat split; try lia.
    rewrite sleeps_app. simpl. now rewrite !app_nil_r.
  - rewrite attempts_step.
    pose proof (turn_facts attempt retries w) as (Hf & Hs & Hturn).
    destruct (turn _ _ _ _ _ _ _ w) as [t w']; cbn [fst snd] in Hf, Hs, Hturn.
    assert (Hcases :
      (exists o, t = Returned (Settle o)
                 /\ sleeps (journal w') = sleeps (journal w))
      \/ (exists e, t = Returned (Again e)
                    /\ sleeps (journal w')
                       = if attempt <? retries
                         then (sleeps (journal w) ++ [backoff attempt])%list
                         else sleeps (journal w))).
    { destruct (server w (fetches w)) as [r0|e0].
      - destruct (ok r0).
        + left. destruct Hturn as (-> & Hsl). eexists; split; eauto.
        + destruct (attempt <? retries).
          * right. destruct Hturn as ((e & ->) & Hsl). eexists; split; eauto.
          * destruct Hturn as (Hsl & ->). destruct (terminal r0).
            -- right. eexists; split; eauto.
            -- left. eexists; split; eauto.
      - right. destruct Hturn as (-> & Hsl). eexists; split; eauto. }
    destruct Hcases as [(o & -> & Hsl)|(e & -> & Hsl)].
    + exists 1%nat. destruct o as [v|e]; cbn [fst snd];
        repeat split; try lia; rewrite Hsl; simpl; now rewrite app_nil_r.
    + destruct (IH (attempt + 1) (Some e) w' ltac:(lia))
        as (m & Hm & Hpos & Hfet & Hsle).
      exists (S m). repeat split; try lia.
      rewrite Hsle, Hsl. destruct n as [|n].
      * assert (m = 0)%nat by lia. subst m.
        assert (Hlt : (attempt <? retries) = false) by (apply Z.ltb_ge; lia).
        rewrite Hlt. reflexivity.
      * assert (Hlt : (attempt <? retries) = true) by (apply Z.ltb_lt; lia).
        rewrite Hlt, <- app_assoc.
        destruct m as [|m]; [lia|]. simpl. now rewrite Nat.sub_0_r.
Qed.
End RetryLoop.

(** X8.  The revised [graphGet] and [graphPost] recover from failures: when
    the first [k] answers are network failures or answers outside 200-299,
    [k] is below [retries], and the next answer is a 2xx response, the call
    settles with that response ([{}] for a 204 in [graphPost], the parsed
    body otherwise) after [k + 1] requests, having slept 1000, 2000, ...,
    [1000 * 2^(k-1)] ms between them. *)
Theorem revised_client_recovers
    (w : World) (endpoint token : string) (body : Json) (retries k : nat)
    (r : Response) :
  fst (GraphClient.getAccessToken w) = Returned token ->
  (k < retries)%nat ->
  (forall i, (i < k)%nat -> failed (server w (fetches w + i)) = true) ->
  server w (fetches w + k) = Responds r -> ok r = true ->
  let got := GraphClientRevised.graphGet endpoint retries w in
  let posted := GraphClientRevised.graphPost endpoint body retries w in
  (fst got = json_outcome r
   /\ fetches (snd got) = (fetches w + k + 1)%nat
   /\ sleeps (journal (snd got)) = (sleeps (journal w) ++ backoffs 1 k)%list)
  /\ (fst posted = settled true r
      /\ fetches (snd posted) = (fetches w + k + 1)%nat
      /\ sleeps (journal (snd posted))
         = (sleeps (journal w) ++ backoffs 1 k)%list).
Proof.
  intros Htok Hk Hfail Hsrv Hok got posted.
  destruct (getAccessToken_quiet w) as (Hs & Hf & Hj).
  subst got posted.
  unfold GraphClientRevised.graphGet, GraphClientRevised.graphPost.
  rewrite !bind_run.
  destruct (GraphClient.getAccessToken w) as [o w1].
  simpl in Htok, Hs, Hf, Hj. subst o.
  rewrite <- Hs, <- Hf in Hfail, Hsrv. rewrite <- Hf, <- Hj.
  split; apply attempts_recover; trivial; lia.
Qed.

Lemma revised_client_recovers_witness :
  let posted := GraphClientRevised.graphPost "/planner/tasks" task 3
                  (cold (flaky 2 created)) in
  fst posted = Returned (JObject [])
  /\ fetches (snd posted) = 3%nat
  /\ sleeps (journal (snd posted)) = [1000; 2000].
Proof.
  destruct (revised_client_recovers (cold (flaky 2 created)) "/planner/tasks"
              "token-1" task 3 2 created eq_refl) as (_ & Hp);
    try reflexivity; [lia| |exact Hp].
  intros i Hi. destruct i as [|[|i]]; [reflexivity|reflexivity|lia].
Defined.

(** X9.  When all [retries] answers are failures, the revised [graphGet]
    and [graphPost] stop after exactly [retries] requests, having slept
    1000, 2000, ... ms between them and not after the last.  The last answer
    decides the outcome: a network failure is rethrown; a status in 400-499
    other than 429 gives "Graph API error: <status>"; any other status
    (429, 5xx) is handed to [response.json()], so the call resolves to the
    parsed error body or rejects with the parse error. *)
Theorem revised_client_gives_up
    (w : World) (endpoint token : string) (body : Json) (n : nat) :
  fst (GraphClient.getAccessToken w) = Returned token ->
  (forall i, (i <= n)%nat -> failed (server w (fetches w + i)) = true) ->
  let got := GraphClientRevised.graphGet endpoint (S n) w in
  let posted := GraphClientRevised.graphPost endpoint body (S n) w in
  (fst got = exhausted false (server w (fetches w + n))
   /\ fetches (snd got) = (fetches w + S n)%nat
   /\ sleeps (journal (snd got)) = (sleeps (journal w) ++ backoffs 1 n)%list)
  /\ (fst posted = exhausted true (server w (fetches w + n))
      /\ fetches (snd posted) = (fetches w + S n)%nat
      /\ sleeps (journal (snd posted))
         = (sleeps (journal w) ++ backoffs 1 n)%list).
Proof.
  intros Htok Hfail got posted.
  destruct (getAccessToken_quiet w) as (Hs & Hf & Hj).
  subst got posted.
  unfold GraphClientRevised.graphGet, GraphClientRevised.graphPost.
  rewrite !bind_run.
  destruct (GraphClient.getAccessToken w) as [o w1].
  simpl in Htok, Hs, Hf, Hj. subst o.
  rewrite <- Hs, <- Hf in Hfail |- *. rewrite <- Hj.
  split; apply attempts_exhaust; trivial; lia.
Qed.

Lemma revised_client_gives_up_witness :
  let got := GraphClientRevised.graphGet "/me" 3
               (cold (fun _ => NetworkFailure (newError "fetch failed"))) in
  fst got = Threw (newError "fetch failed")
  /\ fetches (snd got) = 3%nat
  /\ sleeps (journal (snd got)) = [1000; 2000].
Proof.
  destruct (revised_client_gives_up
              (cold (fun _ => NetworkFailure (newError "fetch failed")))
              "/me" "token-1" task 2 eq_refl) as (Hg & _);
    [reflexivity|exact Hg].
Defined.

(** X10.  Whatever the identity provider and the endpoint answer, the
    revised [graphGet] and [graphPost] issue at most [retries] requests, and
    they sleep only between requests, following the schedule 1000, 2000,
    4000, ... ms: after [m] requests they have slept exactly its first
    [m - 1] delays. *)
Theorem revised_client_schedule
    (w : World) (endpoint : string) (body : Json) (retries : nat) :
  let scheduled (after : World) :=
    exists m, (m <= retries)%nat
              /\ fetches after = (fetches w + m)%nat
              /\ sleeps (journal after)
                 = (sleeps (journal w) ++ backoffs 1 (m - 1))%list in
  scheduled (snd (GraphClientRevised.graphGet endpoint retries w))
  /\ scheduled (snd (GraphClientRevised.graphPost endpoint body retries w)).
Proof.
  intros scheduled. subst scheduled. cbv beta.
  destruct (getAccessToken_quiet w) as (Hs & Hf & Hj).
  unfold GraphClientRevised.graphGet, GraphClientRevised.graphPost.
  rewrite !bind_run.
  destruct (GraphClient.getAccessToken w) as [[token|e] w1];
    simpl in Hs, Hf, Hj.
  - rewrite <- Hf, <- Hj.
    split;
      match goal with
      | |- context [GraphClientRevised.attempts ?m ?nc ?u ?t ?p ?r ?n ?a ?l w1] =>
          destruct (attempts_bounded m nc u t p r n a l w1 ltac:(lia))
            as (k & Hk & _ & Hfet & Hsl)
      end;
      exists k; repeat split; trivial.
  - split; exists 0%nat; simpl; rewrite Hf, Hj, Nat.add_0_r, app_nil_r;
      repeat split; lia.
Qed.

(** ** The conversation store: counting, isolation, ranges *)

Section TextOrder.

Lemma string_compare_cons (a b : ascii) (s t : string) :
  String.compare (String a s) (String b t)
  = match N.compare (N_of_ascii a) (N_of_ascii b) with
    | Eq => String.compare s t
    | Lt => Lt
    | Gt => Gt
    end.
Proof.
  simpl. unfold Ascii.compare.
  destruct (N.compare (N_of_ascii a) (N_of_ascii b)); reflexivity.
Qed.

(** The text order of the store is transitive. *)
Lemma string_leb_trans (a b c : string) :
  String.leb a b = true -> String.leb b c = true -> String.leb a c = true.
Proof.
  unfold String.leb. revert b c.
  induction a as [|x a IH]; intros [|y b] [|z c]; simpl; trivial;
    try discriminate.
  fold (String.compare a b) (String.compare b c) (String.compare a c).
  unfold Ascii.compare.
  destruct (N.compare_spec (N_of_ascii x) (N_of_ascii y)) as [Exy|Lxy|Gxy];
    destruct (N.compare_spec (N_of_ascii y) (N_of_ascii z)) as [Eyz|Lyz|Gyz];
    destruct (N.compare_spec (N_of_ascii x) (N_of_ascii z)) as [Exz|Lxz|Gxz];
    trivial; try discriminate; try lia.
  apply IH.
Qed.

Lemma string_leb_refl (a : string) : String.leb a a = true.
Proof. destruct (String.leb_total a a); assumption. Qed.
End TextOrder.

Section SortAndFilter.
Import SqlJsKVStore.

Lemma insert_asc_after_smaller (r : Row) (l : list Row) :
  Forall (fun x => String.leb (row_timestamp r) (row_timestamp x) = false) l ->
  insert_asc r l = (l ++ [r])%list.
Proof.
  induction 1 as [|x l Hx Hl IH]; simpl; [reflexivity|].
  now rewrite Hx, IH.
Qed.

(** Inserting into a sorted list commutes with filtering. *)
Lemma filter_insert_asc (p : Row -> bool) (r : Row) (l : list Row) :
  StronglySorted row_older_first l ->
  filter p (insert_asc r l)
  = if p r then insert_asc r (filter p l) else filter p l.
Proof.
  induction 1 as [|x l Hs IH Hall]; simpl.
  - destruct (p r); reflexivity.
  - destruct (String.leb (row_timestamp r) (row_timestamp x)) eqn:E; simpl.
    + destruct (p r) eqn:Pr; [|reflexivity].
      destruct (p x) eqn:Px; simpl.
      * now rewrite E.
      * (* every later row is at least as late as [x], hence as [r] *)
        assert (Hlate : Forall (fun y => String.leb (row_timestamp r)
                                                    (row_timestamp y) = true)
                               (filter p l)).
        { apply Forall_forall. intros y Hy. apply filter_In in Hy as [Hy _].
          rewrite Forall_forall in Hall.
          eapply string_leb_trans; [exact E|apply Hall, Hy]. }
        destruct (filter p l) as [|y rest]; [reflexivity|].
        simpl. inversion Hlate as [|? ? Hy _]; subst. now rewrite Hy.
    + rewrite IH. destruct (p x) eqn:Px; destruct (p r) eqn:Pr; simpl;
        rewrite ?E; reflexivity.
Qed.

Lemma order_asc_strongly_sorted (l : list Row) :
  StronglySorted row_older_first (order_by_timestamp_asc l).
Proof.
  apply Sorted_StronglySorted; [|apply order_asc_sorted].
  intros a b c. unfold row_older_first. apply string_leb_trans.
Qed.

(** [ORDER BY timestamp ASC] commutes with a further condition of the
    WHERE clause. *)
Lemma order_asc_filter (p : Row -> bool) (l : list Row) :
  order_by_timestamp_asc (filter p l) = filter p (order_by_timestamp_asc l).
Proof.
  induction l as [|x l IH]; simpl; [reflexivity|].
  rewrite filter_insert_asc by apply order_asc_strongly_sorted.
  destruct (p x); simpl; now rewrite IH.
Qed.

Lemma filter_and {A} (p q : A -> bool) (l : list A) :
  filter (fun x => p x && q x) l = filter q (filter p l).
Proof.
  induction l as [|x l IH]; simpl; [reflexivity|].
  destruct (p x); simpl; [destruct (q x)|]; now rewrite IH.
Qed.

Lemma map_blob_filter (p : Row -> bool) (q : MessageRecord -> bool)
    (l : list Row) :
  (forall r, In r l -> p r = q (blob r)) ->
  map blob (filter p l) = filter q (map blob l).
Proof.
  induction l as [|x l IH]; intros H; simpl; [reflexivity|].
  rewrite (H x) by now left.
  destruct (q (blob x)); simpl; rewrite IH; trivial;
    intros r Hr; apply H; now right.
Qed.
End SortAndFilter.

(** X11.  On an initialised store whose rows were written by [addMessages],
    [getMessagesByTimeRange c A B] returns, in ascending timestamp order,
    exactly the records of [get c] whose timestamp lies in [[A, B]] (as
    often as [get c] returns them), and [countMessages c] is the number of
    records [get c] returns. *)
Theorem byTimeRange_is_get_restricted
    (rows : list SqlJsKVStore.Row) (conversationId A B : string) :
  consistent rows ->
  exists all ranged,
    SqlJsKVStore.get conversationId (Some rows) = (Returned all, Some rows)
    /\ SqlJsKVStore.getMessagesByTimeRange conversationId A B (Some rows)
       = (Returned ranged, Some rows)
    /\ Permutation ranged (filter (in_window A B) all)
    /\ Sorted older_first ranged
    /\ SqlJsKVStore.countMessages conversationId (Some rows)
       = (Returned (Z.of_nat (List.length all)), Some rows).
Proof.
  intros Hc. do 2 eexists. split; [reflexivity|]. split; [reflexivity|].
  split; [|split].
  - rewrite filter_and, order_asc_filter.
    rewrite <- (map_blob_filter (SqlJsKVStore.in_range A B)); [reflexivity|].
    intros r Hr.
    apply (Permutation_in _ (order_asc_perm _)) in Hr.
    apply filter_In in Hr as [Hr _].
    unfold SqlJsKVStore.in_range, in_window.
    now rewrite (consistent_timestamp rows r Hc Hr).
  - apply Sorted_map_blob with (R := row_older_first);
      [|apply order_asc_sorted].
    intros a b Ha Hb. unfold row_older_first, older_first.
    assert (Hin : forall r,
              In r (SqlJsKVStore.order_by_timestamp_asc
                      (filter (fun r => SqlJsKVStore.in_conversation
                                          conversationId r
                                        && SqlJsKVStore.in_range A B r) rows)) ->
              In r rows).
    { intros r Hr. apply (Permutation_in _ (order_asc_perm _)) in Hr.
      now apply filter_In in Hr. }
    now rewrite (consistent_timestamp rows a Hc (Hin a Ha)),
                (consistent_timestamp rows b Hc (Hin b Hb)).
  - unfold SqlJsKVStore.countMessages, bind, SqlJsKVStore.table, ret.
    do 3 f_equal. rewrite length_map.
    apply Permutation_length. symmetry. apply order_asc_perm.
Qed.

Lemma byTimeRange_is_get_restricted_witness :
  exists ranged,
    fst (SqlJsKVStore.getMessagesByTimeRange "conv-1"
           "2026-10-27T00:00:00.000Z" "2026-10-28T09:00:00.000Z"
           (Some history))
    = Returned ranged
    /\ Permutation ranged [tuesday; wednesday].
Proof.
  destruct (byTimeRange_is_get_restricted history "conv-1"
              "2026-10-27T00:00:00.000Z" "2026-10-28T09:00:00.000Z")
    as (all & ranged & Hall & Hrange & Hperm & _); [repeat constructor|].
  exists ranged. split; [now rewrite Hrange|].
  injection Hall as <-. exact Hperm.
Defined.

Section Isolation.
Import SqlJsKVStore.

Lemma in_conversation_row_of (conversationId : string) (m : MessageRecord) :
  in_conversation conversationId (row_of m) = belongs conversationId m.
Proof. reflexivity. Qed.

Lemma filter_none {A} (p : A -> bool) (l : list A) :
  (forall x, In x l -> p x = false) -> filter p l = [].
Proof.
  induction l as [|x l IH]; intros H; simpl; [reflexivity|].
  rewrite (H x) by now left. apply IH. intros y Hy. apply H. now right.
Qed.

(** Rows of other conversations do not show in the rows selected for one. *)
Lemma selection_ignores_others (conversationId : string) (also : Row -> bool)
    (rows : list Row) (ms : list MessageRecord) :
  (forall m, In m ms -> belongs conversationId m = false) ->
  filter (fun r => in_conversation conversationId r && also r)
         (rows ++ map row_of ms)
  = filter (fun r => in_conversation conversationId r && also r) rows.
Proof.
  intros H. rewrite filter_app.
  rewrite (filter_none _ (map row_of ms)); [apply app_nil_r|].
  intros r Hr. apply in_map_iff in Hr as (m & <- & Hm).
  now rewrite in_conversation_row_of, (H m Hm).
Qed.

Lemma selection_survives_clear (conversationId other : string)
    (also : Row -> bool) (rows : list Row) :
  other <> conversationId ->
  filter (fun r => in_conversation conversationId r && also r)
         (filter (fun r => negb (in_conversation other r)) rows)
  = filter (fun r => in_conversation conversationId r && also r) rows.
Proof.
  intros Hne. induction rows as [|r rows IH]; simpl; [reflexivity|].
  destruct (in_conversation other r) eqn:Eo; simpl.
  - assert (Hc : in_conversation conversationId r = false).
    { unfold in_conversation in *. apply String.eqb_eq in Eo.
      apply String.eqb_neq. congruence. }
    rewrite Hc. simpl. exact IH.
  - now rewrite IH.
Qed.
End Isolation.

Section Reads.
Import SqlJsKVStore.

(** All reads of a conversation depend on the table only through the rows
    selected for that conversation. *)
Lemma same_selection_same_reads (conversationId : string)
    (rows1 rows2 : list Row) :
  (forall also,
      filter (fun r => in_conversation conversationId r && also r) rows1
      = filter (fun r => in_conversation conversationId r && also r) rows2) ->
  same_reads conversationId (Some rows1) (Some rows2).
Proof.
  intros H.
  assert (Hconv : filter (in_conversation conversationId) rows1
                  = filter (in_conversation conversationId) rows2).
  { specialize (H (fun _ => true)).
    rewrite (filter_ext _ (in_conversation conversationId)) in H
      by (intros r; apply andb_true_r).
    rewrite H. apply filter_ext. intros r. apply andb_true_r. }
  unfold same_reads, getRecentMessages, get, getMessagesByTimeRange,
    countMessages, getFilteredMessages, bind, table, ret. simpl.
  rewrite Hconv. repeat split.
  - intros A B. now rewrite (H (in_range A B)).
  - intros f [|k ks] A B participants maxResults; [reflexivity|]. simpl.
    rewrite (filter_ext _
               (fun r => in_conversation conversationId r
                         && (in_range A B r && keyword_clause f (k :: ks) r
                             && participant_clause f participants r)))
      by (intros r; now rewrite !andb_assoc).
    rewrite H.
    rewrite (filter_ext
               (fun r => in_conversation conversationId r
                         && (in_range A B r && keyword_clause f (k :: ks) r
                             && participant_clause f participants r))
               (fun r => in_conversation conversationId r && in_range A B r
                         && keyword_clause f (k :: ks) r
                         && participant_clause f participants r))
      by (intros r; now rewrite !andb_assoc).
    reflexivity.
Qed.
End Reads.

(** X12.  Conversations are isolated from one another: appending records
    that are filed under other conversations, or clearing another
    conversation, changes no read of a conversation ([get],
    [getMessagesByTimeRange], [getRecentMessages], [countMessages],
    [getFilteredMessages]). *)
Theorem other_conversations_untouched
    (rows : list SqlJsKVStore.Row) (conversationId other : string)
    (ms : list SqlJsKVStore.MessageRecord) :
  (forall m, In m ms -> belongs conversationId m = false) ->
  other <> conversationId ->
  same_reads conversationId
    (snd (SqlJsKVStore.addMessages ms (Some rows))) (Some rows)
  /\ same_reads conversationId
       (snd (SqlJsKVStore.clearConversation other (Some rows))) (Some rows).
Proof.
  intros Hms Hother. split; apply same_selection_same_reads; intros also.
  - now apply selection_ignores_others.
  - now apply selection_survives_clear.
Qed.

Lemma other_conversations_untouched_witness :
  fst (SqlJsKVStore.get "conv-1"
         (snd (SqlJsKVStore.addMessages [unfiled] (Some history))))
  = fst (SqlJsKVStore.get "conv-1" (Some history)).
Proof.
  destruct (other_conversations_untouched history "conv-1" "conv-2" [unfiled])
    as ((Hget & _) & _).
  - intros m [<-|[]]. reflexivity.
  - discriminate.
  - exact Hget.
Defined.

(** X13.  [addMessages] files every record under [conversation_id || ""]:
    after appending [ms], [get c] returns what it returned before together
    with the records of [ms] filed under [c] (in particular a record without
    conversation id is filed under the empty id), and [countMessages c] has
    grown by their number. *)
Theorem append_files_by_conversation
    (rows : list SqlJsKVStore.Row) (ms : list SqlJsKVStore.MessageRecord)
    (conversationId : string) :
  let appended := snd (SqlJsKVStore.addMessages ms (Some rows)) in
  exists before after,
    fst (SqlJsKVStore.get conversationId (Some rows)) = Returned before
    /\ fst (SqlJsKVStore.get conversationId appended) = Returned after
    /\ Permutation after (before ++ filter (belongs conversationId) ms)
    /\ fst (SqlJsKVStore.countMessages conversationId appended)
       = Returned (Z.of_nat (List.length before
                             + List.length (filter (belongs conversationId) ms)))
    /\ (forall m, SqlJsKVStore.conversation_id m = None ->
                  belongs conversationId m = String.eqb "" conversationId).
Proof.
  intros appended. do 2 eexists.
  split; [reflexivity|]. split; [reflexivity|].
  assert (Hnew : filter (SqlJsKVStore.in_conversation conversationId)
                        (map SqlJsKVStore.row_of ms)
                 = map SqlJsKVStore.row_of (filter (belongs conversationId) ms)).
  { induction ms as [|m ms IH]; simpl; [reflexivity|].
    rewrite in_conversation_row_of.
    destruct (belongs conversationId m); simpl; now rewrite IH. }
  repeat split.
  - rewrite filter_app, Hnew.
    rewrite (Permutation_map _ (order_asc_perm _)), map_app.
    apply Permutation_app.
    + apply Permutation_map. symmetry. apply order_asc_perm.
    + rewrite map_map. simpl. now rewrite map_id.
  - subst appended. unfold SqlJsKVStore.countMessages, bind,
      SqlJsKVStore.table, ret. simpl.
    rewrite filter_app, Hnew, length_app, !length_map.
    rewrite (Permutation_length (order_asc_perm _)). reflexivity.
  - intros m Hm. unfold belongs. now rewrite Hm.
Qed.

(** ** The search finds what is there *)

Section Completeness.
Import SqlJsKVStore.

Lemma c_string_nul_free (s : string) : nul_free s = true -> c_string s = s.
Proof.
  induction s as [|c s IH]; simpl; [reflexivity|]. intros H.
  apply andb_true_iff in H as [Hc Hs]. apply negb_true_iff in Hc.
  now rewrite Hc, IH.
Qed.

Lemma ascii_not_lead (c : ascii) :
  Nat.leb 1 (nat_of_ascii c) && Nat.leb (nat_of_ascii c) 127 = true ->
  is_lead c = false /\ is_continuation c = false.
Proof.
  destruct c as [[] [] [] [] [] [] [] []]; try discriminate; split; reflexivity.
Qed.

Lemma continuation_app (l1 l2 : list string) :
  match l2 with
  | String c EmptyString :: _ => is_continuation c = false
  | _ => True
  end ->
  continuation (l1 ++ l2)
  = (fst (continuation l1), (snd (continuation l1) ++ l2)%list).
Proof.
  intros H2. induction l1 as [|ch l1 IH].
  - simpl. destruct l2 as [|[|c [|c' ch]] l2]; try reflexivity.
    cbn [continuation]. now rewrite H2.
  - destruct ch as [|c [|c' ch]]; try reflexivity.
    cbn [continuation app]. destruct (is_continuation c); [|reflexivity].
    rewrite IH. destruct (continuation l1) as [tail others]. reflexivity.
Qed.

Lemma characters_head (c : ascii) (s : string) :
  is_continuation c = false ->
  match characters (String c s) with
  | String d EmptyString :: _ => is_continuation d = false
  | _ => True
  end.
Proof.
  intros Hc. cbn [characters]. destruct (is_lead c).
  - destruct (continuation (characters s)) as [[|t tail] others];
      [exact Hc|exact I].
  - exact Hc.
Qed.

(** A byte that is no continuation byte starts a character. *)
Lemma characters_app (a : string) (c : ascii) (b : string) :
  is_continuation c = false ->
  characters (a ++ String c b)
  = (characters a ++ characters (String c b))%list.
Proof.
  intros Hc. induction a as [|x a IH]; [reflexivity|].
  cbn [append]. cbn [characters]. fold (characters (String c b)).
  rewrite IH. destruct (is_lead x); [|reflexivity].
  rewrite (continuation_app _ _ (characters_head c b Hc)).
  destruct (continuation (characters a)) as [tail others]. reflexivity.
Qed.

Lemma characters_ascii_app (m b : string) :
  ascii_text m = true ->
  characters (m ++ b) = (singles m ++ characters b)%list.
Proof.
  induction m as [|c m IH]; [reflexivity|]. simpl. intros H.
  apply andb_true_iff in H as [Hc Hm].
  destruct (ascii_not_lead c Hc) as [-> _]. now rewrite IH.
Qed.

Lemma like_chars_percent_all (text : list string) :
  like_chars ["%"] text = true.
Proof.
  induction text as [|ch text IH]; [reflexivity|].
  rewrite like_percent, IH. apply orb_true_r.
Qed.

(** [%] may stand for any characters in front. *)
Lemma like_chars_skip (pattern front text : list string) :
  like_chars pattern text = true ->
  like_chars ("%" :: pattern) (front ++ text) = true.
Proof.
  intros H. induction front as [|ch front IH]; rewrite like_percent.
  - simpl. now rewrite H.
  - cbn [app]. rewrite IH. apply orb_true_r.
Qed.

(** A wildcard-free text in lower case, followed by [%], matches every
    text that starts with it up to ASCII case. *)
Lemma like_chars_literal (m : string) (rest : list string) :
  wildcard_free m = true ->
  like_chars (singles (lower_ascii m ++ "%")) (singles m ++ rest) = true.
Proof.
  induction m as [|c m IH]; intros Hw.
  - apply like_chars_percent_all.
  - simpl in Hw. apply andb_true_iff in Hw as [Hc Hw].
    rewrite <- lower_wildcard in Hc.
    unfold is_wildcard in Hc.
    apply negb_true_iff, orb_false_iff in Hc as [H1 H2].
    cbn [lower_ascii append singles app like_chars String.eqb].
    rewrite H1, H2. cbn [orb]. unfold same_char. cbn [lower_ascii].
    rewrite lower_idempotent, String.eqb_refl. now apply IH.
Qed.

Lemma includes_split (n h : string) :
  includes n h = true -> exists a b, h = a ++ n ++ b.
Proof.
  induction h as [|c h IH]; cbn [includes]; intros H.
  - rewrite orb_false_r in H. apply startsWith_split in H as (t & ->).
    exists "", t. reflexivity.
  - apply orb_true_iff in H as [H|H].
    + apply startsWith_split in H as (t & ->). now exists "", t.
    + destruct (IH H) as (a & b & ->). now exists (String c a), b.
Qed.

Lemma lower_ascii_split (s x y : string) :
  lower_ascii s = x ++ y ->
  exists s1 s2, s = s1 ++ s2 /\ lower_ascii s1 = x /\ lower_ascii s2 = y.
Proof.
  revert s. induction x as [|c x IH]; intros s H.
  - exists "", s. auto.
  - destruct s as [|d s]; [discriminate|]. simpl in H.
    injection H as Hd H. destruct (IH s H) as (s1 & s2 & -> & H1 & H2).
    exists (String d s1), s2. simpl. now rewrite Hd, H1, H2.
Qed.

Lemma wildcard_free_lower (m : string) :
  wildcard_free (lower_ascii m) = true -> wildcard_free m = true.
Proof. now rewrite lower_ascii_wildcard_free. Qed.

(** [LIKE '%k%'] finds every occurrence of a plain [k], ASCII case
    ignored, in a text without NUL. *)
Lemma like_parameter_complete (toLowerCase : string -> string)
    (k text : string) :
  lowers_ascii toLowerCase -> plain k = true -> nul_free text = true ->
  ci_includes k text = true ->
  like (like_parameter toLowerCase k) text = true.
Proof.
  intros Hjs Hk Hnul Hin. unfold plain in Hk.
  apply andb_true_iff in Hk as [Hk _]. apply andb_true_iff in Hk as [Ha Hw].
  unfold like, like_parameter. rewrite (Hjs k Ha).
  assert (Hp : ascii_text ("%" ++ lower_ascii k ++ "%") = true).
  { change ("%" ++ lower_ascii k ++ "%")
      with (String "%" (lower_ascii k ++ "%")).
    cbn [ascii_text]. rewrite ascii_text_app, lower_ascii_text, Ha.
    reflexivity. }
  rewrite (c_string_ascii _ Hp), (characters_ascii _ Hp).
  rewrite (c_string_nul_free _ Hnul).
  unfold ci_includes in Hin. apply includes_split in Hin as (a & b & Hab).
  apply lower_ascii_split in Hab as (s1 & s2 & -> & _ & H2).
  apply lower_ascii_split in H2 as (m & s3 & -> & Hm & _).
  assert (Hma : ascii_text m = true)
    by now rewrite <- lower_ascii_text, Hm, lower_ascii_text.
  assert (Hmw : wildcard_free m = true)
    by (apply wildcard_free_lower; now rewrite Hm, lower_ascii_wildcard_free).
  change ("%" ++ lower_ascii k ++ "%")
    with (String "%" (lower_ascii k ++ "%")).
  cbn [singles]. rewrite <- Hm.
  destruct m as [|c m].
  - rewrite <- (flatten_characters (s1 ++ "" ++ s3)) at 1.
    rewrite <- (app_nil_r (characters _)).
    apply like_chars_skip. reflexivity.
  - cbn [append]. simpl in Hma. apply andb_true_iff in Hma as [Hc Hma].
    destruct (ascii_not_lead c Hc) as [Hlead Hcont].
    rewrite (characters_app s1 c (m ++ s3) Hcont).
    apply like_chars_skip.
    change (String c (m ++ s3)) with (String c m ++ s3).
    rewrite characters_ascii_app by (simpl; now rewrite Hc, Hma).
    apply like_chars_literal. exact Hmw.
Qed.
End Completeness.

(** X14.  The search finds what is there.  For a search with between 1 and
    400 plain keywords and at most 400 plain participants, whenever the cap
    is not reached (the result has fewer records than [maxResults], or than
    5 when [maxResults] is missing or 0), or [maxResults] is negative, which
    lifts the cap, the result holds every stored record of the conversation
    whose timestamp lies in [[A, B]], whose content contains one of the
    keywords and whose author contains one of the participants (when some
    are given), ASCII case ignored, content and author being free of NUL. *)
Theorem plain_search_finds_every_match
    (toLowerCase : string -> string)
    (rows : list SqlJsKVStore.Row) (conversationId : string)
    (keywords : list string) (A B : string)
    (participants : option (list string)) (maxResults : option Z) :
  lowers_ascii toLowerCase ->
  keywords <> [] -> few keywords ->
  Forall (fun k => plain k = true) keywords ->
  few_participants participants ->
  (forall ps, participants = Some ps -> Forall (fun p => plain p = true) ps) ->
  exists result,
    fst (SqlJsKVStore.getFilteredMessages toLowerCase conversationId keywords
           A B participants maxResults (Some rows)) = Returned result
    /\ (SqlJsKVStore.limit_of maxResults < 0
        \/ Z.of_nat (List.length result) < SqlJsKVStore.limit_of maxResults ->
        forall m, In (SqlJsKVStore.row_of m) rows ->
          belongs conversationId m = true -> in_window A B m = true ->
          nul_free (SqlJsKVStore.content m) = true ->
          nul_free (SqlJsKVStore.name m) = true ->
          mentions keywords (SqlJsKVStore.content m) = true ->
          by_participant participants m = true ->
          In m result).
Proof.
  intros Hjs Hk _ Hplain _ Hpplain.
  assert (Hfind : forall texts text,
            Forall (fun k => plain k = true) texts ->
            nul_free text = true -> mentions texts text = true ->
            existsb (fun k => SqlJsKVStore.like
                                (SqlJsKVStore.like_parameter toLowerCase k) text)
                    texts = true).
  { intros texts text Hp Hnul Hm. unfold mentions in Hm.
    apply existsb_exists in Hm as (k & Hin & Hci).
    apply existsb_exists. exists k. split; [exact Hin|].
    rewrite Forall_forall in Hp.
    apply like_parameter_complete; auto. }
  unfold SqlJsKVStore.getFilteredMessages, bind, SqlJsKVStore.table, ret.
  destruct keywords as [|k0 ks]; [contradiction|].
  set (keywords := k0 :: ks) in *.
  eexists. split; [reflexivity|].
  set (sorted := SqlJsKVStore.order_by_timestamp_desc _).
  set (cap := SqlJsKVStore.limit_of maxResults).
  intros Hcap m Hstored Hconv Hwin Hnc Hnn Hkw Hpart.
  assert (Hall : SqlJsKVStore.sql_limit cap sorted = sorted).
  { unfold SqlJsKVStore.sql_limit in *.
    destruct (Z.ltb_spec cap 0); [reflexivity|].
    destruct Hcap as [Hcap|Hcap]; [lia|].
    rewrite length_map, length_firstn in Hcap.
    apply firstn_all2. lia. }
  rewrite Hall. apply in_map_iff.
  exists (SqlJsKVStore.row_of m). split; [reflexivity|].
  apply (Permutation_in _ (Permutation_sym (order_desc_perm _))).
  apply filter_In. split; [exact Hstored|].
  unfold SqlJsKVStore.in_conversation, SqlJsKVStore.in_range,
    SqlJsKVStore.keyword_clause, SqlJsKVStore.participant_clause.
  cbn [SqlJsKVStore.row_of SqlJsKVStore.row_conversation_id
       SqlJsKVStore.row_timestamp SqlJsKVStore.row_content
       SqlJsKVStore.row_name].
  unfold belongs in Hconv. unfold in_window in Hwin.
  rewrite Hconv, Hwin, (Hfind keywords _ Hplain Hnc Hkw). simpl.
  unfold by_participant in Hpart.
  destruct participants as [[|p ps]|]; trivial.
  apply Hfind; auto.
Qed.

Lemma plain_search_finds_every_match_witness :
  exists result,
    fst (SqlJsKVStore.getFilteredMessages SqlJsKVStore.lower_ascii "conv-1"
           ["budget"] "2026-10-01T00:00:00.000Z" "2026-11-01T00:00:00.000Z"
           None (Some 5) (Some history)) = Returned result
    /\ In monday result.
Proof.
  destruct (plain_search_finds_every_match SqlJsKVStore.lower_ascii
              history "conv-1" ["budget"]
              "2026-10-01T00:00:00.000Z" "2026-11-01T00:00:00.000Z" None
              (Some 5))
    as (result & Hrun & Hall).
  - intros s _. reflexivity.
  - discriminate.
  - unfold few. simpl. lia.
  - repeat constructor.
  - exact I.
  - intros ps Hps. discriminate.
  - exists result. split; [exact Hrun|].
    apply Hall; try reflexivity.
    + right. injection Hrun as <-. simpl. lia.
    + right. right. left. reflexivity.
Defined.
